(** * Self-refreshing credential cache: CachedResultSupplier and its
      prefetch strategies

    A shallow embedding of [cloud_idaas.core.cache] and of the credential
    providers built on it:
    - [refresh_result.py]            -> [RefreshResult],
                                        [Module RefreshResultBuilder]
    - [stale_value_behavior.py]      -> [StaleValueBehavior]
    - [strategy/one_caller_blocks_prefetch_strategy.py]
                                     -> [Module OneCallerBlocksPrefetchStrategy]
    - [strategy/non_blocking_prefetch_strategy.py]
                                     -> [Module NonBlockingPrefetchStrategy]
    - [cached_result_supplier.py]    -> [Module CachedResultSupplier]
    - [implementation/abstract_refreshed_credential_provider.py]
                                     -> [Module AbstractRefreshedCredentialProvider]
    - [implementation/idaas_machine_credential_provider.py]
                                     -> [Module IDaaSMachineCredentialProvider]

    Python methods are computations in a state-and-exception monad [M] over
    a [World] that holds the mutable objects (the cached snapshot, the
    refresh lock, the strategies' [threading.Event] flags, the class-level
    semaphore and executor).  Impure zero-argument callables (the clock, the
    value supplier, [random.random]) are oracles indexed by how often they
    were called so far.  Every computation also returns the list of
    observable events it produced, in order.

    Scope.  Exceptions are those derived from [Exception]; a value supplier
    that raises [KeyboardInterrupt] or [SystemExit] is not modelled.  The
    clock returns at every reading, and every datetime is timezone-aware
    (UTC), so that the comparisons of [_cache_is_stale] and
    [_should_initiate_cache_prefetch] always have a result.  The range of
    [datetime] and [timedelta] is modelled: arithmetic that leaves it
    raises [OverflowError]. *)

From Stdlib Require Import ZArith QArith Qabs Qround List String Bool Lia Lqa.
Import ListNotations.

Open Scope Z_scope.

(** ** Exceptions

    The exceptions that [except Exception] catches.  [OverflowError],
    [ValueError] and [OSError] are the built-in ones that the [datetime]
    module raises; their message texts are not modelled. *)

Inductive exn : Type :=
| ConcurrentOperationException
| CacheException (cause : exn)
| AttributeError (msg : string)
| RuntimeError (msg : string)
| Exception (msg : string)
| OverflowError
| ValueError
| OSError (errno : Z).

(** A Python expression returns a value or raises. *)
Inductive result (A : Type) : Type :=
| Return (a : A)
| Raise (e : exn).
Arguments Return {A} _.
Arguments Raise {A} _.

Definition and_then {A B} (r : result A) (k : A -> result B) : result B :=
  match r with
  | Return a => k a
  | Raise e => Raise e
  end.

(** ** Instants and durations

    [datetime] and [timedelta] have microsecond resolution; both are
    integers counting microseconds, a [datetime] from the epoch
    1970-01-01T00:00:00 UTC.  A [datetime] of this development is
    timezone-aware and in UTC, as are the instants of the default clock
    ([datetime.now(timezone.utc)]) and of [fromtimestamp(..., tz=utc)];
    naive datetimes, and the [TypeError] of comparing a naive with an aware
    one, are outside the model.

    Both Python types are bounded.  A [datetime] lies between
    [datetime.min] (0001-01-01T00:00:00) and [datetime.max]
    (9999-12-31T23:59:59.999999), a [timedelta] between [timedelta.min]
    (-999999999 days) and [timedelta.max] (999999999 days, 23:59:59.999999);
    the constructor of [timedelta] and the addition and subtraction of
    [datetime] raise [OverflowError] when the result is outside. *)

Definition datetime := Z.
Definition timedelta := Z.

Definition microseconds_per_second : Z := 1000000.

Definition seconds (n : Z) : timedelta := n * microseconds_per_second.
Definition minutes (n : Z) : timedelta := seconds (60 * n).

Definition datetime_min : datetime := -62135596800000000.
Definition datetime_max : datetime := 253402300799999999.
Definition timedelta_min : timedelta := -86399999913600000000.
Definition timedelta_max : timedelta := 86399999999999999999.

Definition in_range (lo hi x : Z) : bool := (lo <=? x) && (x <=? hi).

(** [timedelta.total_seconds()]: the duration as a (fractional) number of
    seconds. *)
Definition total_seconds (d : timedelta) : Q := Qmake d 1000000.

(** Rounding to the nearest integer, ties to even: what [timedelta] does
    with fractional microseconds. *)
Definition round_half_even (q : Q) : Z :=
  let f := Qfloor q in
  match Qcompare (q - inject_Z f) (1 # 2) with
  | Lt => f
  | Gt => f + 1
  | Eq => if Z.even f then f else f + 1
  end.

(** The number of microseconds in [x] seconds, rounded. *)
Definition microseconds_of_seconds (x : Q) : Z :=
  round_half_even (x * inject_Z microseconds_per_second).

(** The range check at the end of every [timedelta(...)] call. *)
Definition new_timedelta (us : Z) : result timedelta :=
  if in_range timedelta_min timedelta_max us then Return us
  else Raise OverflowError.

(** [timedelta(seconds=x)] for a fractional [x], and for an integer [n]. *)
Definition timedelta_of_seconds (x : Q) : result timedelta :=
  new_timedelta (microseconds_of_seconds x).

Definition timedelta_of_int_seconds (n : Z) : result timedelta :=
  new_timedelta (seconds n).

(** [t + d] and [t - d] for a datetime [t] and a timedelta [d]. *)
Definition datetime_add (t : datetime) (d : timedelta) : result datetime :=
  if in_range datetime_min datetime_max (t + d) then Return (t + d)
  else Raise OverflowError.

Definition datetime_sub (t : datetime) (d : timedelta) : result datetime :=
  if in_range datetime_min datetime_max (t - d) then Return (t - d)
  else Raise OverflowError.

(** ** Messages

    The texts of the log lines and of the exceptions raised by the Python
    runtime. *)

Definition msg_lock_timeout : string :=
  "Failed to acquire refresh lock".
Definition msg_too_many_refreshes : string :=
  "Only 100 concurrent refreshes are allowed".
Definition msg_old_value : string :=
  "Failed to refresh cache, using the old value".
Definition msg_none_has_no_prefetch : string :=
  "'NoneType' object has no attribute 'prefetch'".
Definition msg_after_shutdown : string :=
  "cannot schedule new futures after shutdown".

(** ** refresh_result.py *)

Record RefreshResult (T : Type) : Type := mkRefreshResult {
  value : T;
  stale_time : option datetime;
  prefetch_time : option datetime
}.
Arguments mkRefreshResult {T} _ _ _.
Arguments value {T} _.
Arguments stale_time {T} _.
Arguments prefetch_time {T} _.

(** ** stale_value_behavior.py *)

Inductive StaleValueBehavior : Type := STRICT | ALLOW.

Definition StaleValueBehavior_eqb (a b : StaleValueBehavior) : bool :=
  match a, b with
  | STRICT, STRICT | ALLOW, ALLOW => true
  | _, _ => false
  end.

(** ** Callables, events and the world *)

(** The callables that are handed to a prefetch strategy: the bound method
    [self._refresh_cache] of the supplier, or any other function, named by
    a number. *)
Inductive callable : Type :=
| refresh_cache_method
| user_function (id : nat).

Inductive level : Type := ERROR | WARNING | INFO.

Inductive event : Type :=
| Log (lv : level) (msg : string)
| Called (c : callable)          (* [value_updater()] was entered *)
| SupplierCalled (n : nat)       (* [self._value_supplier()] was entered *)
| Submitted (c : callable)       (* the executor accepted a work item *)
| LeaseAcquired
| LeaseReleased.

Record World (T : Type) : Type := mkWorld {
  (* CachedResultSupplier instance *)
  _cached_value : option (RefreshResult T);
  _refresh_lock : bool;                  (* threading.Lock: true = held *)
  (* OneCallerBlocksPrefetchStrategy instance *)
  _currently_refreshing : bool;          (* threading.Event *)
  (* NonBlockingPrefetchStrategy instance *)
  _currently_prefetching : bool;         (* threading.Event *)
  (* NonBlockingPrefetchStrategy class attributes *)
  _concurrent_refresh_lease : nat;       (* threading.Semaphore value *)
  _executor_queue : list callable;       (* work items not yet run *)
  _executor_shutdown : bool;
  (* how often each oracle has been consulted *)
  clock_reads : nat;
  supplier_calls : nat;
  random_draws : nat
}.
Arguments mkWorld {T} _ _ _ _ _ _ _ _ _ _.
Arguments _cached_value {T} _.
Arguments _refresh_lock {T} _.
Arguments _currently_refreshing {T} _.
Arguments _currently_prefetching {T} _.
Arguments _concurrent_refresh_lease {T} _.
Arguments _executor_queue {T} _.
Arguments _executor_shutdown {T} _.
Arguments clock_reads {T} _.
Arguments supplier_calls {T} _.
Arguments random_draws {T} _.

Section Setters.
Context {T : Type}.
Implicit Type w : World T.

Definition set_cached_value (v : option (RefreshResult T)) w : World T :=
  mkWorld v (_refresh_lock w) (_currently_refreshing w)
    (_currently_prefetching w) (_concurrent_refresh_lease w)
    (_executor_queue w) (_executor_shutdown w)
    (clock_reads w) (supplier_calls w) (random_draws w).

Definition set_refresh_lock (b : bool) w : World T :=
  mkWorld (_cached_value w) b (_currently_refreshing w)
    (_currently_prefetching w) (_concurrent_refresh_lease w)
    (_executor_queue w) (_executor_shutdown w)
    (clock_reads w) (supplier_calls w) (random_draws w).

Definition set_currently_refreshing (b : bool) w : World T :=
  mkWorld (_cached_value w) (_refresh_lock w) b
    (_currently_prefetching w) (_concurrent_refresh_lease w)
    (_executor_queue w) (_executor_shutdown w)
    (clock_reads w) (supplier_calls w) (random_draws w).

Definition set_currently_prefetching (b : bool) w : World T :=
  mkWorld (_cached_value w) (_refresh_lock w) (_currently_refreshing w)
    b (_concurrent_refresh_lease w)
    (_executor_queue w) (_executor_shutdown w)
    (clock_reads w) (supplier_calls w) (random_draws w).

Definition set_concurrent_refresh_lease (n : nat) w : World T :=
  mkWorld (_cached_value w) (_refresh_lock w) (_currently_refreshing w)
    (_currently_prefetching w) n
    (_executor_queue w) (_executor_shutdown w)
    (clock_reads w) (supplier_calls w) (random_draws w).

Definition set_executor_queue (q : list callable) w : World T :=
  mkWorld (_cached_value w) (_refresh_lock w) (_currently_refreshing w)
    (_currently_prefetching w) (_concurrent_refresh_lease w)
    q (_executor_shutdown w)
    (clock_reads w) (supplier_calls w) (random_draws w).

Definition set_executor_shutdown (b : bool) w : World T :=
  mkWorld (_cached_value w) (_refresh_lock w) (_currently_refreshing w)
    (_currently_prefetching w) (_concurrent_refresh_lease w)
    (_executor_queue w) b
    (clock_reads w) (supplier_calls w) (random_draws w).

Definition set_clock_reads (n : nat) w : World T :=
  mkWorld (_cached_value w) (_refresh_lock w) (_currently_refreshing w)
    (_currently_prefetching w) (_concurrent_refresh_lease w)
    (_executor_queue w) (_executor_shutdown w)
    n (supplier_calls w) (random_draws w).

Definition set_supplier_calls (n : nat) w : World T :=
  mkWorld (_cached_value w) (_refresh_lock w) (_currently_refreshing w)
    (_currently_prefetching w) (_concurrent_refresh_lease w)
    (_executor_queue w) (_executor_shutdown w)
    (clock_reads w) n (random_draws w).

Definition set_random_draws (n : nat) w : World T :=
  mkWorld (_cached_value w) (_refresh_lock w) (_currently_refreshing w)
    (_currently_prefetching w) (_concurrent_refresh_lease w)
    (_executor_queue w) (_executor_shutdown w)
    (clock_reads w) (supplier_calls w) n.
End Setters.

(** ** The monad of Python computations *)

Record outcome (T A : Type) : Type := mkOutcome {
  res : result A;
  st : World T;
  evs : list event
}.
Arguments mkOutcome {T A} _ _ _.
Arguments res {T A} _.
Arguments st {T A} _.
Arguments evs {T A} _.

Definition M (T A : Type) : Type := World T -> outcome T A.

Section Monad.
Context {T : Type}.

Definition ret {A} (a : A) : M T A :=
  fun w => mkOutcome (Return a) w [].

Definition raise {A} (e : exn) : M T A :=
  fun w => mkOutcome (Raise e) w [].

(** An expression that touches no state: its value is returned, its
    exception raised. *)
Definition lift {A} (r : result A) : M T A :=
  match r with
  | Return a => ret a
  | Raise e => raise e
  end.

Definition bind {A B} (m : M T A) (k : A -> M T B) : M T B :=
  fun w =>
    match m w with
    | mkOutcome (Return a) w1 e1 =>
        match k a w1 with
        | mkOutcome r w2 e2 => mkOutcome r w2 (e1 ++ e2)
        end
    | mkOutcome (Raise e) w1 e1 => mkOutcome (Raise e) w1 e1
    end.

(** [try: body  except Exception as e: handler(e)] *)
Definition try_except {A} (body : M T A) (handler : exn -> M T A) : M T A :=
  fun w =>
    match body w with
    | mkOutcome (Return a) w1 e1 => mkOutcome (Return a) w1 e1
    | mkOutcome (Raise e) w1 e1 =>
        match handler e w1 with
        | mkOutcome r w2 e2 => mkOutcome r w2 (e1 ++ e2)
        end
    end.

(** [try: body  finally: cleanup].  The cleanup runs on every exit of the
    body; an exception of the cleanup replaces the body's result. *)
Definition try_finally {A} (body : M T A) (cleanup : M T unit) : M T A :=
  fun w =>
    match body w with
    | mkOutcome r w1 e1 =>
        match cleanup w1 with
        | mkOutcome (Return _) w2 e2 => mkOutcome r w2 (e1 ++ e2)
        | mkOutcome (Raise e) w2 e2 => mkOutcome (Raise e) w2 (e1 ++ e2)
        end
    end.

Definition gets {A} (f : World T -> A) : M T A :=
  fun w => mkOutcome (Return (f w)) w [].

Definition modify (f : World T -> World T) : M T unit :=
  fun w => mkOutcome (Return tt) (f w) [].

Definition emit (e : event) : M T unit :=
  fun w => mkOutcome (Return tt) w [e].

Definition log (lv : level) (msg : string) : M T unit :=
  emit (Log lv msg).
End Monad.

Declare Scope py_scope.
Delimit Scope py_scope with py.
Notation "x <- c ;; k" := (bind c (fun x => k))
  (at level 61, c at next level, right associativity) : py_scope.
Notation "c ;; k" := (bind c (fun _ => k))
  (at level 61, right associativity) : py_scope.
Open Scope py_scope.

(** ** Primitives of the threading and concurrent.futures modules

    A call runs on one thread and no other thread runs meanwhile, so a lock
    that is held at [acquire] stays held for the whole bounded wait. *)

Section Primitives.
Context {T : Type}.

(** [Lock.acquire(timeout=t)] *)
Definition lock_acquire (timeout : Q) : M T bool :=
  held <- gets _refresh_lock ;;
  if held then ret false
  else modify (set_refresh_lock true) ;; ret true.

(** [Lock.release()] *)
Definition lock_release : M T unit :=
  modify (set_refresh_lock false).

(** [Semaphore.acquire(blocking=False)] *)
Definition lease_acquire_nonblocking : M T bool :=
  n <- gets _concurrent_refresh_lease ;;
  match n with
  | O => ret false
  | S n' =>
      modify (set_concurrent_refresh_lease n') ;;
      emit LeaseAcquired ;;
      ret true
  end.

(** [Semaphore.release()] *)
Definition lease_release : M T unit :=
  modify (fun w =>
    set_concurrent_refresh_lease (S (_concurrent_refresh_lease w)) w) ;;
  emit LeaseReleased.

(** [ThreadPoolExecutor.submit(fn, arg)]: the work item is queued for the
    single worker; after [shutdown] the call raises. *)
Definition executor_submit (c : callable) : M T unit :=
  down <- gets _executor_shutdown ;;
  if down
  then raise (RuntimeError msg_after_shutdown)
  else
    modify (fun w => set_executor_queue (_executor_queue w ++ [c]) w) ;;
    emit (Submitted c).
End Primitives.

(** ** prefetch_strategy.py: the two strategies a supplier can hold

    The library's two implementations of the interface.  A supplier holds
    [Some] of them or [None]; a strategy class written by the caller is
    outside this model. *)

Inductive PrefetchStrategy : Type :=
| OneCallerBlocks
| NonBlocking.

(** ** strategy/one_caller_blocks_prefetch_strategy.py *)

Module OneCallerBlocksPrefetchStrategy.
Section WithInvoke.
Context {T : Type}.
(** What calling a callable does. *)
Variable invoke : callable -> M T unit.

Definition call (value_updater : callable) : M T unit :=
  emit (Called value_updater) ;; invoke value_updater.

Definition prefetch (value_updater : callable) : M T unit :=
  is_set <- gets _currently_refreshing ;;
  if negb is_set then
    modify (set_currently_refreshing true) ;;
    try_finally
      (call value_updater)
      (modify (set_currently_refreshing false))
  else ret tt.

Definition close : M T unit :=
  modify (set_currently_refreshing false).
End WithInvoke.
End OneCallerBlocksPrefetchStrategy.

(** ** strategy/non_blocking_prefetch_strategy.py *)

Module NonBlockingPrefetchStrategy.

Definition MAX_CONCURRENT_REFRESHES : nat := 100.

Section WithInvoke.
Context {T : Type}.
Variable invoke : callable -> M T unit.

Definition call (value_updater : callable) : M T unit :=
  emit (Called value_updater) ;; invoke value_updater.

Definition prefetch (value_updater : callable) : M T unit :=
  acquired <- lease_acquire_nonblocking ;;
  if negb acquired then
    log WARNING msg_too_many_refreshes
  else
    is_set <- gets _currently_prefetching ;;
    if negb is_set then
      modify (set_currently_prefetching true) ;;
      try_except
        (executor_submit value_updater)
        (fun _ =>
           modify (set_currently_prefetching false) ;;
           lease_release)
    else lease_release.

Definition _run_with_cleanup (value_updater : callable) : M T unit :=
  try_finally
    (call value_updater)
    (modify (set_currently_prefetching false) ;;
     lease_release).

(** The executor's single worker takes the oldest work item and runs it;
    an exception of the item is stored in its future and goes no
    further. *)
Definition worker_run_next : M T unit :=
  q <- gets _executor_queue ;;
  match q with
  | [] => ret tt
  | c :: q' =>
      modify (set_executor_queue q') ;;
      try_except (_run_with_cleanup c) (fun _ => ret tt)
  end.

Fixpoint worker_run (items : nat) : M T unit :=
  match items with
  | O => ret tt
  | S n => worker_run_next ;; worker_run n
  end.

(** [shutdown_executor]: [shutdown(wait=True)] refuses new work and
    returns when the pending items have run. *)
Definition shutdown_executor : M T unit :=
  modify (set_executor_shutdown true) ;;
  q <- gets _executor_queue ;;
  worker_run (List.length q).

Definition close : M T unit :=
  modify (set_currently_prefetching false).
End WithInvoke.
End NonBlockingPrefetchStrategy.

(** ** cached_result_supplier.py *)

Module CachedResultSupplier.

(** The module-level names the class reads at run time (the tests rebind
    them), with the impure functions as oracles: [random_random n] is the
    [n]-th value of [random.random()], [_get_current_time n] the [n]-th
    reading of the wall clock, [functions i] the body of the callable
    [user_function i]. *)
Record globals (T : Type) : Type := mkGlobals {
  BLOCKING_REFRESH_MAX_WAIT : timedelta;
  JITTER_START : timedelta;
  JITTER_RANGE : timedelta;
  random_random : nat -> Q;
  _get_current_time : nat -> datetime;
  functions : nat -> M T unit
}.
Arguments mkGlobals {T} _ _ _ _ _ _.
Arguments BLOCKING_REFRESH_MAX_WAIT {T} _.
Arguments JITTER_START {T} _.
Arguments JITTER_RANGE {T} _.
Arguments random_random {T} _.
Arguments _get_current_time {T} _.
Arguments functions {T} _.

(** The values the module gives the three tunables. *)
Definition default_globals {T} (random : nat -> Q) (now : nat -> datetime)
    (fs : nat -> M T unit) : globals T :=
  mkGlobals (seconds 5) (minutes 5) (minutes 5) random now fs.

(** The fields [__init__] fills from its arguments; [_cached_value] and
    [_refresh_lock] live in the [World]. *)
Record t (T : Type) : Type := mk {
  _value_supplier : nat -> result (RefreshResult T);
  _prefetch_strategy : option PrefetchStrategy;
  _clock : nat -> datetime;
  _stale_value_behavior : StaleValueBehavior
}.
Arguments mk {T} _ _ _ _.
Arguments _value_supplier {T} _.
Arguments _prefetch_strategy {T} _.
Arguments _clock {T} _.
Arguments _stale_value_behavior {T} _.

Section Methods.
Context {T : Type}.
Variable g : globals T.

Definition __init__
    (value_supplier : nat -> result (RefreshResult T))
    (prefetch_strategy : option PrefetchStrategy)
    (clock : option (nat -> datetime))
    (stale_value_behavior : StaleValueBehavior) : M T (t T) :=
  modify (set_cached_value None) ;;
  modify (set_refresh_lock false) ;;
  ret (mk value_supplier
          prefetch_strategy
          (match clock with Some c => c | None => _get_current_time g end)
          stale_value_behavior).

(** [CachedResultSupplier(value_supplier)]: every optional argument takes
    the default of the signature ([None], [None], [ALLOW]). *)
Definition construct (value_supplier : nat -> result (RefreshResult T))
    : M T (t T) :=
  __init__ value_supplier None None ALLOW.

Variable self : t T.

(** [self._clock()] *)
Definition clock_now : M T datetime :=
  n <- gets clock_reads ;;
  modify (set_clock_reads (S n)) ;;
  ret (_clock self n).

(** [self._value_supplier()] *)
Definition call_value_supplier : M T (RefreshResult T) :=
  n <- gets supplier_calls ;;
  modify (set_supplier_calls (S n)) ;;
  emit (SupplierCalled n) ;;
  match _value_supplier self n with
  | Return r => ret r
  | Raise e => raise e
  end.

(** [random.random()] *)
Definition draw_random : M T Q :=
  n <- gets random_draws ;;
  modify (set_random_draws (S n)) ;;
  ret (random_random g n).

Definition _cache_is_stale (refresh_result : option (RefreshResult T))
    : M T bool :=
  match refresh_result with
  | None => ret true
  | Some r =>
      match stale_time r with
      | None => ret false
      | Some stale_time =>
          now <- clock_now ;;
          ret (now >? stale_time)
      end
  end.

Definition _should_initiate_cache_prefetch
    (refresh_result : option (RefreshResult T)) : M T bool :=
  match refresh_result with
  | None => ret false
  | Some r =>
      match prefetch_time r with
      | None => ret false
      | Some prefetch_time =>
          now <- clock_now ;;
          ret (now >? prefetch_time)
      end
  end.

(** The last line is [time + JITTER_START + timedelta(seconds=jitter_amount)]:
    the left addition, then the [timedelta], then the right addition, each
    of which can raise [OverflowError].  The product
    [random.random() * jitter_seconds] is taken exactly here (in Python it
    is a product of doubles). *)
Definition _jitter_time (time : datetime) : M T datetime :=
  let jitter_seconds := total_seconds (JITTER_RANGE g) in
  if Qle_bool jitter_seconds 0 then ret time
  else
    u <- draw_random ;;
    let jitter_amount := Qabs (u * jitter_seconds) in
    shifted <- lift (datetime_add time (JITTER_START g)) ;;
    jitter <- lift (timedelta_of_seconds jitter_amount) ;;
    lift (datetime_add shifted jitter).

Definition jitter_optional (time : option datetime)
    : M T (option datetime) :=
  match time with
  | Some t => t' <- _jitter_time t ;; ret (Some t')
  | None => ret None
  end.

Definition _handle_fetched_success (refreshed_value : RefreshResult T)
    : M T unit :=
  stale_time <- jitter_optional (stale_time refreshed_value) ;;
  prefetch_time <- jitter_optional (prefetch_time refreshed_value) ;;
  modify (set_cached_value
            (Some (mkRefreshResult (value refreshed_value)
                                   stale_time prefetch_time))).

Definition _handle_fetch_failure (exception : exn) : M T unit :=
  if StaleValueBehavior_eqb (_stale_value_behavior self) STRICT
  then raise (CacheException exception)
  else log INFO msg_old_value.

(** [lock_acquired] starts as [False] and is assigned by the first
    statement of the [try]; with a timeout that is not negative (the module
    sets five seconds) [acquire] does not raise, so the [finally] always
    sees the value [acquire] returned. *)
Definition _refresh_cache : M T unit :=
  lock_acquired <-
    lock_acquire (total_seconds (BLOCKING_REFRESH_MAX_WAIT g)) ;;
  try_finally
    (if negb lock_acquired then
       log ERROR msg_lock_timeout
     else
       cached <- gets _cached_value ;;
       stale <- _cache_is_stale cached ;;
       if negb stale then ret tt
       else
         try_except
           (refreshed_value <- call_value_supplier ;;
            _handle_fetched_success refreshed_value)
           _handle_fetch_failure)
    (if lock_acquired then lock_release else ret tt).

(** What calling a callable does in a program that holds this
    supplier. *)
Definition invoke (c : callable) : M T unit :=
  match c with
  | refresh_cache_method => _refresh_cache
  | user_function i => functions g i
  end.

(** [self._prefetch_strategy.prefetch(value_updater)]: attribute lookup
    on [None] raises. *)
Definition strategy_prefetch (value_updater : callable) : M T unit :=
  match _prefetch_strategy self with
  | None =>
      raise (AttributeError msg_none_has_no_prefetch)
  | Some OneCallerBlocks =>
      OneCallerBlocksPrefetchStrategy.prefetch invoke value_updater
  | Some NonBlocking =>
      NonBlockingPrefetchStrategy.prefetch value_updater
  end.

Definition get : M T T :=
  local_cached_value <- gets _cached_value ;;
  stale <- _cache_is_stale local_cached_value ;;
  local_cached_value <-
    (if stale then _refresh_cache ;; gets _cached_value
     else ret local_cached_value) ;;
  match local_cached_value with
  | None => raise ConcurrentOperationException
  | Some r =>
      due <- _should_initiate_cache_prefetch (Some r) ;;
      (if due then strategy_prefetch refresh_cache_method else ret tt) ;;
      ret (value r)
  end.
End Methods.
End CachedResultSupplier.

(** ** refresh_result.py: the builder *)

Module RefreshResultBuilder.
Record t (T : Type) : Type := mk {
  _value : T;
  _stale_time : option datetime;
  _prefetch_time : option datetime
}.
Arguments mk {T} _ _ _.
Arguments _value {T} _.
Arguments _stale_time {T} _.
Arguments _prefetch_time {T} _.

(** [RefreshResult.builder(value)] *)
Definition builder {T} (value : T) : t T := mk value None None.

Definition stale_time {T} (stale_time : datetime) (self : t T) : t T :=
  mk (_value self) (Some stale_time) (_prefetch_time self).

Definition prefetch_time {T} (prefetch_time : datetime) (self : t T) : t T :=
  mk (_value self) (_stale_time self) (Some prefetch_time).

Definition build {T} (self : t T) : RefreshResult T :=
  mkRefreshResult (_value self) (_stale_time self) (_prefetch_time self).
End RefreshResultBuilder.

(** ** implementation/abstract_refreshed_credential_provider.py *)

Module AbstractRefreshedCredentialProvider.

Definition msg_none_has_no_close : string :=
  "'NoneType' object has no attribute 'close'".

Record t (T : Type) : Type := mk {
  _async_credential_update_enabled : bool;
  _stale_value_behavior : StaleValueBehavior;
  _cached_result_supplier : CachedResultSupplier.t T
}.
Arguments mk {T} _ _ _.
Arguments _async_credential_update_enabled {T} _.
Arguments _stale_value_behavior {T} _.
Arguments _cached_result_supplier {T} _.

Section Methods.
Context {T : Type}.
Variable g : CachedResultSupplier.globals T.

(** [OneCallerBlocksPrefetchStrategy()] and [NonBlockingPrefetchStrategy()]:
    the new instance starts with its event clear. *)
Definition new_strategy (s : PrefetchStrategy) : M T PrefetchStrategy :=
  match s with
  | OneCallerBlocks =>
      modify (set_currently_refreshing false) ;; ret OneCallerBlocks
  | NonBlocking =>
      modify (set_currently_prefetching false) ;; ret NonBlocking
  end.

(** [_refresh_credential], which the subclass supplies, is the value
    supplier of the cache. *)
Definition __init__
    (_refresh_credential : nat -> result (RefreshResult T))
    (async_credential_update_enabled : bool)
    (stale_value_behavior : StaleValueBehavior) : M T (t T) :=
  prefetch_strategy <-
    (if async_credential_update_enabled
     then new_strategy NonBlocking
     else new_strategy OneCallerBlocks) ;;
  supplier <-
    CachedResultSupplier.__init__ g _refresh_credential
      (Some prefetch_strategy) None stale_value_behavior ;;
  ret (mk async_credential_update_enabled stale_value_behavior supplier).

(** The call with the defaults of the signature ([False], [STRICT]). *)
Definition construct (_refresh_credential : nat -> result (RefreshResult T))
    : M T (t T) :=
  __init__ _refresh_credential false STRICT.

Definition is_async_credential_update_enabled (self : t T) : bool :=
  _async_credential_update_enabled self.

Definition get_cached_result_supplier (self : t T)
    : CachedResultSupplier.t T :=
  _cached_result_supplier self.

(** [self._cached_result_supplier._prefetch_strategy.close()] *)
Definition close (self : t T) : M T unit :=
  match CachedResultSupplier._prefetch_strategy
          (_cached_result_supplier self) with
  | None => raise (AttributeError msg_none_has_no_close)
  | Some OneCallerBlocks => OneCallerBlocksPrefetchStrategy.close
  | Some NonBlocking => NonBlockingPrefetchStrategy.close
  end.

(** [get_credential] and [get_attested_document] of the subclasses:
    [self.get_cached_result_supplier().get()]. *)
Definition get_credential (self : t T) : M T T :=
  CachedResultSupplier.get g (get_cached_result_supplier self).
End Methods.
End AbstractRefreshedCredentialProvider.

(** ** implementation/idaas_machine_credential_provider.py: the timing of
       a refreshed credential *)

Module IDaaSMachineCredentialProvider.

(** The two fields of the token response that the timing reads, both
    integers counting seconds. *)
Record IDaaSTokenResponse : Type := mkToken {
  access_token : string;
  expires_in : Z;
  expires_at : Z
}.

(** The timestamps [datetime.fromtimestamp(t, tz=timezone.utc)] accepts are
    those of the years 1 to 9999.  Outside, CPython on 64-bit Linux raises
    [ValueError] while the C function [gmtime] can still convert the
    timestamp (the year fits a C [int]), [OSError] with [EOVERFLOW] while
    the timestamp fits a [time_t], and [OverflowError] beyond. *)
Definition timestamp_min : Z := -62135596800.
Definition timestamp_max : Z := 253402300799.
Definition gmtime_min : Z := -67768040609740800.
Definition gmtime_max : Z := 67768036191676799.
Definition time_t_min : Z := - 2 ^ 63.
Definition time_t_max : Z := 2 ^ 63 - 1.
Definition EOVERFLOW : Z := 75.

Definition fromtimestamp (timestamp : Z) : result datetime :=
  if in_range timestamp_min timestamp_max timestamp then
    Return (seconds timestamp)
  else if in_range gmtime_min gmtime_max timestamp then Raise ValueError
  else if in_range time_t_min time_t_max timestamp then
    Raise (OSError EOVERFLOW)
  else Raise OverflowError.

(** [_refresh_credential], given what [_get_token_from_idaas()] did (it
    returned a token response or raised).  [//] is floor division, which
    is [Z.div] for a positive divisor. *)
Definition _refresh_credential (fetched : result IDaaSTokenResponse)
    : result (RefreshResult IDaaSTokenResponse) :=
  and_then fetched (fun token_response =>
  and_then (fromtimestamp (expires_at token_response)) (fun expires_at =>
  let expires_in_seconds := expires_in token_response in
  and_then (timedelta_of_int_seconds (expires_in_seconds / 5)) (fun fifth =>
  and_then (datetime_sub expires_at fifth) (fun stale_time =>
  and_then (timedelta_of_int_seconds (expires_in_seconds / 3)) (fun third =>
  and_then (datetime_sub expires_at third) (fun prefetch_time =>
  Return (RefreshResultBuilder.build
            (RefreshResultBuilder.prefetch_time prefetch_time
               (RefreshResultBuilder.stale_time stale_time
                  (RefreshResultBuilder.builder token_response)))))))))).
End IDaaSMachineCredentialProvider.

(** * Concrete programs

    Small closed programs over [T := string], used to run the definitions
    above. *)

Import CachedResultSupplier.

Module Scenario.

(** The world right after the modules are imported: nothing cached, the
    lock free, both flags clear, every lease available, the executor idle. *)
Definition fresh_world : World string :=
  mkWorld None false false false
    NonBlockingPrefetchStrategy.MAX_CONCURRENT_REFRESHES [] false
    0%nat 0%nat 0%nat.

(** An updater that raises, as in the strategy tests. *)
Definition failing_updater : callable -> M string unit :=
  fun _ => raise (Exception "Test exception").

(** A value supplier that always raises. *)
Definition failing_supplier : nat -> result (RefreshResult string) :=
  fun _ => Raise (Exception "Refresh failed").

(** Module globals with the defaults, and with jitter switched off
    ([JITTER_RANGE = 0]). *)
Definition defaults : globals string :=
  default_globals (fun _ => 1 # 2) (fun _ => 0) (fun _ => ret tt).

Definition no_jitter : globals string :=
  mkGlobals (seconds 5) (minutes 5) 0 (fun _ => 1 # 2) (fun _ => 0)
    (fun _ => ret tt).

(** The timeline of the prefetch scenario: the first reading of the clock
    is [t0 = 0], every later one is [t0 + 6s]. *)
Definition clock_0_then_6s (n : nat) : datetime :=
  match n with
  | O => 0
  | S _ => seconds 6
  end.

(** The producer of the scenario: first ["v1"] with stale time [+10s] and
    prefetch time [+5s] (called at [t0]), from then on ["v2"] (called at
    [t0 + 6s]). *)
Definition v1_then_v2 (n : nat) : result (RefreshResult string) :=
  match n with
  | O => Return (mkRefreshResult "v1"%string
                   (Some (seconds 10)) (Some (seconds 5)))
  | S _ => Return (mkRefreshResult "v2"%string
                     (Some (seconds 16)) (Some (seconds 11)))
  end.

Definition blocking_supplier : CachedResultSupplier.t string :=
  mk v1_then_v2 (Some OneCallerBlocks) clock_0_then_6s ALLOW.

(** The world after the first [get()] at [t0], which cached ["v1"]. *)
Definition world_at_t0 : World string :=
  st (get no_jitter blocking_supplier fresh_world).

(** A stale snapshot: stale since [1s], no prefetch time. *)
Definition old_snapshot : RefreshResult string :=
  mkRefreshResult "old_value"%string (Some (seconds 1)) None.

(** A snapshot whose prefetch time has passed at [6s] while it is not
    stale. *)
Definition v1_snapshot : RefreshResult string :=
  mkRefreshResult "v1"%string (Some (seconds 10)) (Some (seconds 5)).

Definition with_cache (r : RefreshResult string) : World string :=
  set_cached_value (Some r) fresh_world.

Definition clock_6s : nat -> datetime := fun _ => seconds 6.

(** A value supplier whose result is to stay fresh for ever: its stale
    time is [datetime.max]. *)
Definition never_stale_supplier : nat -> result (RefreshResult string) :=
  fun _ => Return (mkRefreshResult "v1"%string (Some datetime_max) None).

(** Module globals with [JITTER_START] rebound to minus ten minutes. *)
Definition negative_start : globals string :=
  mkGlobals (seconds 5) (minutes (-10)) (minutes 5) (fun _ => 1 # 2)
    (fun _ => 0) (fun _ => ret tt).

(** A stale snapshot whose prefetch time is set (and has passed as well at
    [6s]). *)
Definition old_snapshot_with_prefetch : RefreshResult string :=
  mkRefreshResult "old_value"%string (Some (seconds 2)) (Some (seconds 1)).

End Scenario.

(** * Notions used in the statements *)

(** One more reading of the clock, one more call of the value supplier. *)
Definition tick_clock {T} (w : World T) : World T :=
  set_clock_reads (S (clock_reads w)) w.

Definition tick_supplier {T} (w : World T) : World T :=
  set_supplier_calls (S (supplier_calls w)) w.

(** What [get] does once it holds a snapshot [r]: steps 4 and 5. *)
Definition serve {T} (g : globals T) (self : t T) (r : RefreshResult T)
    : M T T :=
  due <- _should_initiate_cache_prefetch self (Some r) ;;
  (if due then strategy_prefetch g self refresh_cache_method else ret tt) ;;
  ret (value r).

(** [get] when the staleness test says "stale" and the refresh routine
    returns: the snapshot that is cached then is served. *)
Definition after_refresh {T} (g : globals T) (self : t T)
    (o : outcome T unit) : outcome T T :=
  match res o with
  | Raise e => mkOutcome (Raise e) (st o) (evs o)
  | Return _ =>
      match _cached_value (st o) with
      | None => mkOutcome (Raise ConcurrentOperationException) (st o) (evs o)
      | Some r =>
          let o' := serve g self r (st o) in
          mkOutcome (res o') (st o') (evs o ++ evs o')
      end
  end.

(** The snapshot [r], with stale time [ts], is cached in [w]; it is stale
    at every reading of the clock from [w] on, and the value supplier
    raises at every call from [w] on. *)
Definition stale_and_failing {T} (self : t T) (r : RefreshResult T)
    (ts : datetime) (w : World T) : Prop :=
  _cached_value w = Some r
  /\ stale_time r = Some ts
  /\ (forall n, (clock_reads w <= n)%nat -> _clock self n > ts)
  /\ (forall n, (supplier_calls w <= n)%nat ->
                exists e, _value_supplier self n = Raise e).

(** If the supplier has no prefetch strategy, the prefetch time of [r] (when
    it has one) is not passed at any reading of the clock from [w] on. *)
Definition dispatch_is_safe {T} (self : t T) (r : RefreshResult T)
    (w : World T) : Prop :=
  _prefetch_strategy self = None ->
  forall tp, prefetch_time r = Some tp ->
  forall n, (clock_reads w <= n)%nat -> _clock self n <= tp.

(** The supplier's own state is the same in [w] and [w']: same snapshot,
    same lock, and the value supplier was not called in between. *)
Definition same_supplier_state {T} (w w' : World T) : Prop :=
  _cached_value w' = _cached_value w
  /\ _refresh_lock w' = _refresh_lock w
  /\ supplier_calls w' = supplier_calls w.

(** Everything but the snapshot and the oracle counters is the same in [w]
    and [w']: the lock, both strategy flags, the leases, the executor. *)
Definition same_coordination {T} (w w' : World T) : Prop :=
  _refresh_lock w' = _refresh_lock w
  /\ _currently_refreshing w' = _currently_refreshing w
  /\ _currently_prefetching w' = _currently_prefetching w
  /\ _concurrent_refresh_lease w' = _concurrent_refresh_lease w
  /\ _executor_queue w' = _executor_queue w
  /\ _executor_shutdown w' = _executor_shutdown w.

(** [random.random()] gives values in [[0, 1)]. *)
Definition random_in_unit_interval {T} (g : globals T) : Prop :=
  forall n, (0 <= random_random g n)%Q /\ (random_random g n < 1)%Q.

(** [t'] is [t] after the jitter transform of [g]: [t] itself when the
    range is not positive, otherwise between [t + JITTER_START] and
    [t + JITTER_START + JITTER_RANGE]. *)
Definition jittered {T} (g : globals T) (t t' : datetime) : Prop :=
  if JITTER_RANGE g <=? 0 then t' = t
  else t + JITTER_START g <= t' <= t + JITTER_START g + JITTER_RANGE g.

Definition jittered_optional {T} (g : globals T)
    (t t' : option datetime) : Prop :=
  match t, t' with
  | None, None => True
  | Some a, Some b => jittered g a b
  | _, _ => False
  end.

(** What the next call of [_jitter_time] in [w] adds on top of
    [JITTER_START], in microseconds: the next value of [random.random()]
    times the range, rounded. *)
Definition next_jitter {T} (g : globals T) (w : World T) : timedelta :=
  microseconds_of_seconds
    (Qabs (random_random g (random_draws w) * total_seconds (JITTER_RANGE g))).

(** The jitter transform of [g] stays within the range of [datetime] at
    the time [t], when [t] is set: with a positive range, both
    [t + JITTER_START] and [t + JITTER_START + JITTER_RANGE] are
    datetimes. *)
Definition jitter_fits {T} (g : globals T) (t : option datetime) : Prop :=
  match t with
  | None => True
  | Some t =>
      0 < JITTER_RANGE g ->
      datetime_min <= t + JITTER_START g
      /\ t + JITTER_START g + JITTER_RANGE g <= datetime_max
  end.

(** The staleness test of the refresh routine, made in [w], says "stale"
    and leaves the world [w0]: nothing is cached (the clock is not read),
    or the cached snapshot is stale at the next reading of the clock. *)
Definition stale_in {T} (self : t T) (w w0 : World T) : Prop :=
  (_cached_value w = None /\ w0 = w)
  \/ (exists r ts, _cached_value w = Some r
                   /\ stale_time r = Some ts
                   /\ (_clock self (clock_reads w) >? ts) = true
                   /\ w0 = tick_clock w).

(** The world in which the refresh routine, which found the lock free and
    made its staleness test, leaving [w0], handles what the value supplier
    returned: the lock is held and the supplier was called once more. *)
Definition fetching {T} (w0 : World T) : World T :=
  tick_supplier (set_refresh_lock true w0).

(** The computation that went from [w] to the outcome [o] did not call the
    value supplier and left the cached snapshot in place. *)
Definition supplier_not_called {T A} (w : World T) (o : outcome T A) : Prop :=
  supplier_calls (st o) = supplier_calls w
  /\ _cached_value (st o) = _cached_value w
  /\ (clock_reads w <= clock_reads (st o))%nat
  /\ forall n, ~ In (SupplierCalled n) (evs o).

(** The snapshot [r] is not stale at any reading of the clock from [w]
    on. *)
Definition not_stale_from {T} (self : t T) (r : RefreshResult T)
    (w : World T) : Prop :=
  forall ts n, stale_time r = Some ts -> (clock_reads w <= n)%nat ->
               _clock self n <= ts.

(** Nothing is cached in [w], or the cached snapshot is stale at every
    reading of the clock from [w] on. *)
Definition needs_refresh {T} (self : t T) (w : World T) : Prop :=
  _cached_value w = None
  \/ exists r ts, _cached_value w = Some r
                  /\ stale_time r = Some ts
                  /\ forall n, (clock_reads w <= n)%nat -> _clock self n > ts.

(** * Verification *)

(** ** Unfolding the monad *)

Ltac unfold_monad :=
  unfold bind, ret, raise, try_except, try_finally, gets, modify, log, emit
    in *.

Ltac unfold_primitives :=
  unfold lock_acquire, lock_release, lease_acquire_nonblocking,
    lease_release, executor_submit in *.

(** ** The prefetch strategies *)

Lemma one_caller_blocks_prefetch_busy {T} (invoke : callable -> M T unit)
    (value_updater : callable) (w : World T) :
  _currently_refreshing w = true ->
  OneCallerBlocksPrefetchStrategy.prefetch invoke value_updater w
  = mkOutcome (Return tt) w [].
Proof.
  intros Hflag.
  unfold OneCallerBlocksPrefetchStrategy.prefetch.
  unfold_monad. cbn. rewrite Hflag. reflexivity.
Qed.

Lemma one_caller_blocks_prefetch_idle {T} (invoke : callable -> M T unit)
    (value_updater : callable) (w : World T) :
  _currently_refreshing w = false ->
  let run := invoke value_updater (set_currently_refreshing true w) in
  OneCallerBlocksPrefetchStrategy.prefetch invoke value_updater w
  = mkOutcome (res run) (set_currently_refreshing false (st run))
      (Called value_updater :: evs run).
Proof.
  intros Hflag.
  unfold OneCallerBlocksPrefetchStrategy.prefetch,
    OneCallerBlocksPrefetchStrategy.call.
  unfold_monad. cbn. rewrite Hflag. cbn.
  destruct (invoke value_updater (set_currently_refreshing true w))
    as [[[]|e] w1 e1];
    cbn; rewrite ?app_nil_r; reflexivity.
Qed.

(** C9.  OneCallerBlocksPrefetchStrategy.prefetch: with the flag set at
    entry it returns at once, the world untouched and the updater not
    called.  With the flag clear it calls the updater exactly once, on the
    calling thread, in a world where the flag is set; it ends the way the
    updater ended (returned or raised), and the flag is clear afterwards in
    both cases. *)
Theorem one_caller_blocks_prefetch_guard {T} (invoke : callable -> M T unit)
    (value_updater : callable) (w : World T) :
  (_currently_refreshing w = true ->
     OneCallerBlocksPrefetchStrategy.prefetch invoke value_updater w
     = mkOutcome (Return tt) w [])
  /\
  (_currently_refreshing w = false ->
     let run := invoke value_updater (set_currently_refreshing true w) in
     let o := OneCallerBlocksPrefetchStrategy.prefetch invoke value_updater w in
     res o = res run
     /\ evs o = Called value_updater :: evs run
     /\ st o = set_currently_refreshing false (st run)
     /\ _currently_refreshing (st o) = false).
Proof.
  split; intros Hflag.
  - apply one_caller_blocks_prefetch_busy; assumption.
  - cbn zeta.
    rewrite (one_caller_blocks_prefetch_idle invoke value_updater w Hflag).
    repeat split; reflexivity.
Qed.

(** C8.  NonBlockingPrefetchStrategy.prefetch: with no lease left in the
    shared semaphore it logs a warning and returns; the world is untouched
    (nothing queued, flag as before) and the updater is not called.  With a
    lease available and the instance flag already set, it takes the lease,
    gives it back and returns; again nothing is queued and the updater is
    not called. *)
Theorem non_blocking_prefetch_skips {T} (value_updater : callable)
    (w : World T) :
  (_concurrent_refresh_lease w = O ->
     NonBlockingPrefetchStrategy.prefetch value_updater w
     = mkOutcome (Return tt) w
         [Log WARNING msg_too_many_refreshes])
  /\
  (_concurrent_refresh_lease w <> O ->
   _currently_prefetching w = true ->
     NonBlockingPrefetchStrategy.prefetch value_updater w
     = mkOutcome (Return tt) w [LeaseAcquired; LeaseReleased]).
Proof.
  unfold NonBlockingPrefetchStrategy.prefetch.
  split.
  - intros Hlease. unfold_primitives. unfold_monad. cbn.
    rewrite Hlease. reflexivity.
  - intros Hlease Hflag. unfold_primitives. unfold_monad. cbn.
    destruct w as [cv lk r p lease q sd cr sc rd]. cbn in *.
    destruct lease as [|n]; [congruence|].
    cbn. rewrite Hflag. reflexivity.
Qed.

Lemma non_blocking_prefetch_skips_witness :
  NonBlockingPrefetchStrategy.prefetch (user_function 0)
    (set_concurrent_refresh_lease 0 Scenario.fresh_world)
  = mkOutcome (Return tt)
      (set_concurrent_refresh_lease 0 Scenario.fresh_world)
      [Log WARNING msg_too_many_refreshes]
  /\
  NonBlockingPrefetchStrategy.prefetch (user_function 0)
    (set_currently_prefetching true Scenario.fresh_world)
  = mkOutcome (Return tt)
      (set_currently_prefetching true Scenario.fresh_world)
      [LeaseAcquired; LeaseReleased].
Proof.
  split.
  - apply (proj1 (non_blocking_prefetch_skips (user_function 0)
                    (set_concurrent_refresh_lease 0 Scenario.fresh_world))).
    reflexivity.
  - apply (proj2 (non_blocking_prefetch_skips (user_function 0)
                    (set_currently_prefetching true Scenario.fresh_world))).
    + discriminate.
    + reflexivity.
Defined.

Lemma one_caller_blocks_prefetch_guard_witness :
  OneCallerBlocksPrefetchStrategy.prefetch Scenario.failing_updater
    (user_function 0) (set_currently_refreshing true Scenario.fresh_world)
  = mkOutcome (Return tt)
      (set_currently_refreshing true Scenario.fresh_world) []
  /\
  _currently_refreshing
    (st (OneCallerBlocksPrefetchStrategy.prefetch Scenario.failing_updater
           (user_function 0) Scenario.fresh_world)) = false.
Proof.
  split.
  - apply (proj1 (one_caller_blocks_prefetch_guard Scenario.failing_updater
                    (user_function 0)
                    (set_currently_refreshing true Scenario.fresh_world))).
    reflexivity.
  - apply (proj2 (one_caller_blocks_prefetch_guard Scenario.failing_updater
                    (user_function 0) Scenario.fresh_world)).
    reflexivity.
Defined.

(** C5, as the code has it.  NonBlockingPrefetchStrategy.prefetch returns
    normally for every updater and every world, and so does the worker
    that later runs the queued item.  OneCallerBlocksPrefetchStrategy.prefetch
    returns normally when it skips; when it runs the updater it ends as the
    updater ended, so an exception of the updater reaches the caller. *)
Theorem prefetch_raises_only_what_updater_raises {T}
    (invoke : callable -> M T unit) (value_updater : callable)
    (w : World T) :
  res (NonBlockingPrefetchStrategy.prefetch value_updater w) = Return tt
  /\ res (NonBlockingPrefetchStrategy.worker_run_next invoke w) = Return tt
  /\ res (OneCallerBlocksPrefetchStrategy.prefetch invoke value_updater w)
     = (if _currently_refreshing w then Return tt
        else res (invoke value_updater (set_currently_refreshing true w))).
Proof.
  split; [|split].
  - unfold NonBlockingPrefetchStrategy.prefetch.
    unfold_primitives. unfold_monad. cbn.
    destruct (_concurrent_refresh_lease w); cbn; [reflexivity|].
    destruct (_currently_prefetching w); cbn; [reflexivity|].
    destruct (_executor_shutdown w); reflexivity.
  - unfold NonBlockingPrefetchStrategy.worker_run_next,
      NonBlockingPrefetchStrategy._run_with_cleanup,
      NonBlockingPrefetchStrategy.call.
    unfold_primitives. unfold_monad. cbn.
    destruct (_executor_queue w) as [|c q]; cbn; [reflexivity|].
    match goal with |- context [invoke ?c ?x] =>
      destruct (invoke c x) as [[[]|e] w1 e1] end; reflexivity.
  - destruct (_currently_refreshing w) eqn:Hflag.
    + rewrite (one_caller_blocks_prefetch_busy invoke value_updater w Hflag).
      reflexivity.
    + rewrite (one_caller_blocks_prefetch_idle invoke value_updater w Hflag).
      reflexivity.
Qed.

(** C5, as stated, fails: OneCallerBlocksPrefetchStrategy.prefetch with the
    flag clear and an updater that raises hands the updater's exception to
    its caller (and clears the flag). *)
Lemma one_caller_blocks_prefetch_propagates :
  let o := OneCallerBlocksPrefetchStrategy.prefetch Scenario.failing_updater
             (user_function 0) Scenario.fresh_world in
  res o = Raise (Exception "Test exception")
  /\ _currently_refreshing (st o) = false.
Proof. split; reflexivity. Qed.

(** ** Bounded arithmetic *)

Lemma in_range_true (lo hi x : Z) :
  in_range lo hi x = true <-> lo <= x <= hi.
Proof. unfold in_range. rewrite andb_true_iff, !Z.leb_le. tauto. Qed.

Lemma in_range_false (lo hi x : Z) :
  in_range lo hi x = false <-> x < lo \/ hi < x.
Proof. unfold in_range. rewrite andb_false_iff, !Z.leb_gt. tauto. Qed.

Lemma datetime_add_cases (t : datetime) (d : timedelta) :
  (datetime_min <= t + d <= datetime_max
   /\ datetime_add t d = Return (t + d))
  \/ ((t + d < datetime_min \/ datetime_max < t + d)
      /\ datetime_add t d = Raise OverflowError).
Proof.
  unfold datetime_add.
  destruct (in_range datetime_min datetime_max (t + d)) eqn:H.
  - left. apply in_range_true in H. auto.
  - right. apply in_range_false in H. auto.
Qed.

Lemma datetime_sub_cases (t : datetime) (d : timedelta) :
  (datetime_min <= t - d <= datetime_max
   /\ datetime_sub t d = Return (t - d))
  \/ ((t - d < datetime_min \/ datetime_max < t - d)
      /\ datetime_sub t d = Raise OverflowError).
Proof.
  unfold datetime_sub.
  destruct (in_range datetime_min datetime_max (t - d)) eqn:H.
  - left. apply in_range_true in H. auto.
  - right. apply in_range_false in H. auto.
Qed.

Lemma new_timedelta_cases (us : Z) :
  (timedelta_min <= us <= timedelta_max /\ new_timedelta us = Return us)
  \/ ((us < timedelta_min \/ timedelta_max < us)
      /\ new_timedelta us = Raise OverflowError).
Proof.
  unfold new_timedelta.
  destruct (in_range timedelta_min timedelta_max us) eqn:H.
  - left. apply in_range_true in H. auto.
  - right. apply in_range_false in H. auto.
Qed.

(** ** The jitter transform *)

Lemma same_coordination_refl {T} (w : World T) : same_coordination w w.
Proof. repeat split. Qed.

Lemma same_coordination_trans {T} (w1 w2 w3 : World T) :
  same_coordination w1 w2 -> same_coordination w2 w3 ->
  same_coordination w1 w3.
Proof.
  unfold same_coordination.
  intros [H1 [H2 [H3 [H4 [H5 H6]]]]] [K1 [K2 [K3 [K4 [K5 K6]]]]].
  repeat split; congruence.
Qed.

Lemma round_half_even_nonneg (q : Q) : (0 <= q)%Q -> 0 <= round_half_even q.
Proof.
  intros Hq. unfold round_half_even.
  assert (Hf : 0 <= Qfloor q).
  { change 0 with (Qfloor (inject_Z 0)). apply Qfloor_resp_le. exact Hq. }
  destruct (Qcompare (q - inject_Z (Qfloor q)) (1 # 2));
    [destruct (Z.even (Qfloor q))| |]; lia.
Qed.

Lemma round_half_even_le (q : Q) (n : Z) :
  (q <= inject_Z n)%Q -> round_half_even q <= n.
Proof.
  intros Hq. unfold round_half_even.
  assert (Hf : Qfloor q <= n).
  { rewrite <- (Qfloor_Z n). apply Qfloor_resp_le. exact Hq. }
  assert (Hlow : (inject_Z (Qfloor q) <= q)%Q) by apply Qfloor_le.
  destruct (Z.eq_dec (Qfloor q) n) as [Heq|Hne].
  - (* the floor is [n] itself: [q] is the integer [n], no rounding up *)
    assert (Hfrac : (q - inject_Z (Qfloor q) < 1 # 2)%Q).
    { rewrite Heq in *. lra. }
    assert (Hc : Qcompare (q - inject_Z (Qfloor q)) (1 # 2) = Lt)
      by (apply Qlt_alt; exact Hfrac).
    rewrite Hc. lia.
  - destruct (Qcompare (q - inject_Z (Qfloor q)) (1 # 2));
      [destruct (Z.even (Qfloor q))| |]; lia.
Qed.

Lemma total_seconds_microseconds (d : timedelta) :
  (total_seconds d * inject_Z microseconds_per_second == inject_Z d)%Q.
Proof.
  unfold total_seconds, microseconds_per_second, inject_Z, Qeq, Qmult.
  cbn. lia.
Qed.

Lemma total_seconds_nonpos (d : timedelta) :
  d <= 0 -> Qle_bool (total_seconds d) 0 = true.
Proof.
  intros Hd. apply Qle_bool_iff. unfold total_seconds, Qle. cbn. lia.
Qed.

Lemma Qle_bool_total_seconds (d : timedelta) :
  Qle_bool (total_seconds d) 0 = (d <=? 0).
Proof.
  destruct (d <=? 0) eqn:Hd.
  - apply total_seconds_nonpos. apply Z.leb_le. exact Hd.
  - apply Z.leb_gt in Hd.
    destruct (Qle_bool (total_seconds d) 0) eqn:Hq; [|reflexivity].
    apply Qle_bool_iff in Hq. unfold total_seconds, Qle in Hq.
    cbn in Hq. lia.
Qed.

Lemma jitter_amount_nonneg (u s : Q) :
  0 <= microseconds_of_seconds (Qabs (u * s)).
Proof.
  unfold microseconds_of_seconds. apply round_half_even_nonneg.
  apply Qmult_le_0_compat; [apply Qabs_nonneg | discriminate].
Qed.

Lemma jitter_amount_le_range (u : Q) (d : timedelta) :
  0 < d -> (0 <= u)%Q -> (u < 1)%Q ->
  microseconds_of_seconds (Qabs (u * total_seconds d)) <= d.
Proof.
  intros Hd Hu0 Hu1. unfold microseconds_of_seconds.
  apply round_half_even_le.
  assert (Hs : (0 <= total_seconds d)%Q).
  { unfold total_seconds, Qle. cbn. lia. }
  rewrite Qabs_pos by (apply Qmult_le_0_compat; assumption).
  rewrite <- (total_seconds_microseconds d).
  apply Qmult_le_compat_r; [|discriminate].
  rewrite <- (Qmult_1_l (total_seconds d)) at 2.
  apply Qmult_le_compat_r; [apply Qlt_le_weak; exact Hu1 | exact Hs].
Qed.

(** Jitter switched off: the time comes back as it is. *)
Lemma jitter_time_off {T} (g : globals T) (w : World T) (time : datetime) :
  JITTER_RANGE g <= 0 ->
  _jitter_time g time w = mkOutcome (Return time) w [].
Proof.
  intros Hrange. unfold _jitter_time.
  rewrite (total_seconds_nonpos _ Hrange). reflexivity.
Qed.

(** Jitter switched on: one random value is drawn; the result is
    [time + JITTER_START + next_jitter] when both sums are datetimes, and
    [OverflowError] otherwise. *)
Lemma jitter_time_on {T} (g : globals T) (w : World T) (time : datetime) :
  0 < JITTER_RANGE g ->
  let j := next_jitter g w in
  let w' := set_random_draws (S (random_draws w)) w in
  (datetime_min <= time + JITTER_START g
   /\ time + JITTER_START g + j <= datetime_max
   /\ _jitter_time g time w
      = mkOutcome (Return (time + JITTER_START g + j)) w' [])
  \/ ((time + JITTER_START g < datetime_min
       \/ datetime_max < time + JITTER_START g + j)
      /\ _jitter_time g time w = mkOutcome (Raise OverflowError) w' []).
Proof.
  intros Hrange. cbn zeta. unfold _jitter_time, draw_random, next_jitter.
  rewrite Qle_bool_total_seconds.
  destruct (JITTER_RANGE g <=? 0) eqn:Hle; [apply Z.leb_le in Hle; lia|].
  pose proof (jitter_amount_nonneg (random_random g (random_draws w))
                (total_seconds (JITTER_RANGE g))) as Hj.
  unfold timedelta_of_seconds.
  unfold_monad. cbn [res st evs random_draws].
  set (j := microseconds_of_seconds _) in *.
  destruct (datetime_add_cases time (JITTER_START g)) as [[H1 E1]|[H1 E1]];
    rewrite E1; cbn [lift]; unfold_monad.
  - destruct (new_timedelta_cases j) as [[H2 E2]|[H2 E2]];
      rewrite E2; cbn [lift]; unfold_monad.
    + destruct (datetime_add_cases (time + JITTER_START g) j)
        as [[H3 E3]|[H3 E3]];
        rewrite E3; cbn [lift app]; unfold_monad.
      * left. repeat split; lia.
      * right. split; [lia | reflexivity].
    + right. split; [|reflexivity].
      unfold timedelta_max, timedelta_min, datetime_max, datetime_min in *.
      lia.
  - right. split; [lia | reflexivity].
Qed.

(** C7, as the code has it.  The jitter transform.  With
    [JITTER_RANGE <= 0] the time comes back unchanged and [random.random]
    is not consulted.  With [JITTER_RANGE > 0]: a time that is returned is
    at least [time + JITTER_START], and at most
    [time + JITTER_START + JITTER_RANGE] for a random value [u] of
    [random.random], that is [0 <= u < 1]; it is not before [time] when
    [JITTER_START] is not negative (the module sets five minutes).  A time
    is returned whenever [time + JITTER_START] and
    [time + JITTER_START + JITTER_RANGE] are both datetimes; the only
    exception raised is [OverflowError], and it is raised whenever
    [time + JITTER_START] is not a datetime. *)
Theorem jitter_time_bounds {T} (g : globals T) (w : World T)
    (time : datetime) :
  (JITTER_RANGE g <= 0 ->
     _jitter_time g time w = mkOutcome (Return time) w [])
  /\
  (0 < JITTER_RANGE g ->
     let u := random_random g (random_draws w) in
     (forall jittered,
        res (_jitter_time g time w) = Return jittered ->
        time + JITTER_START g <= jittered
        /\ (0 <= JITTER_START g -> time <= jittered)
        /\ ((0 <= u)%Q -> (u < 1)%Q ->
            jittered <= time + JITTER_START g + JITTER_RANGE g))
     /\
     ((0 <= u)%Q -> (u < 1)%Q ->
      datetime_min <= time + JITTER_START g ->
      time + JITTER_START g + JITTER_RANGE g <= datetime_max ->
      exists jittered, res (_jitter_time g time w) = Return jittered)
     /\
     (forall e, res (_jitter_time g time w) = Raise e -> e = OverflowError)
     /\
     (time + JITTER_START g < datetime_min
      \/ datetime_max < time + JITTER_START g ->
      res (_jitter_time g time w) = Raise OverflowError)).
Proof.
  split; [apply jitter_time_off|].
  intros Hrange. cbn zeta.
  pose proof (jitter_amount_nonneg (random_random g (random_draws w))
                (total_seconds (JITTER_RANGE g))) as Hlow.
  fold (next_jitter g w) in Hlow.
  destruct (jitter_time_on g w time Hrange) as [[H1 [H2 E]]|[H1 E]];
    rewrite E; cbn [res]; repeat split.
  - injection H as <-. lia.
  - injection H as <-. lia.
  - intros Hu0 Hu1. injection H as <-.
    pose proof (jitter_amount_le_range _ _ Hrange Hu0 Hu1) as Hhigh.
    fold (next_jitter g w) in Hhigh. lia.
  - intros _ _ _ _. eexists. reflexivity.
  - intros e H. discriminate H.
  - intros H. exfalso. lia.
  - discriminate H.
  - discriminate H.
  - discriminate H.
  - intros Hu0 Hu1 Hmin Hmax. exfalso.
    pose proof (jitter_amount_le_range _ _ Hrange Hu0 Hu1) as Hhigh.
    fold (next_jitter g w) in Hhigh. lia.
  - intros e H. injection H as <-. reflexivity.
Qed.

Lemma jitter_time_bounds_witness :
  _jitter_time Scenario.no_jitter (seconds 10) Scenario.fresh_world
  = mkOutcome (Return (seconds 10)) Scenario.fresh_world []
  /\
  exists jittered,
    res (_jitter_time Scenario.defaults (seconds 10) Scenario.fresh_world)
    = Return jittered
    /\ seconds 10 + minutes 5 <= jittered <= seconds 10 + minutes 5 + minutes 5.
Proof.
  split.
  - apply (proj1 (jitter_time_bounds Scenario.no_jitter Scenario.fresh_world
                    (seconds 10))).
    discriminate.
  - destruct (proj2 (jitter_time_bounds Scenario.defaults Scenario.fresh_world
                       (seconds 10)) eq_refl)
      as [Hbounds [Hreturns _]].
    destruct Hreturns as [jittered Hres];
      [discriminate | reflexivity | discriminate | discriminate |].
    exists jittered. split; [exact Hres|].
    destruct (Hbounds jittered Hres) as [Hlow [_ Hhigh]].
    split; [exact Hlow|].
    apply Hhigh; [discriminate | reflexivity].
Defined.

(** C7, as stated, fails in two places.  At [datetime.max], with the
    module's values, the transform raises [OverflowError] instead of giving
    a later time.  And with a negative [JITTER_START] (here minus ten
    minutes, range five minutes, random value one half) the time 1000 s
    comes back as 550 s: earlier. *)
Lemma jitter_time_overflows_or_moves_earlier :
  (0 < JITTER_RANGE Scenario.defaults
   /\ res (_jitter_time Scenario.defaults datetime_max Scenario.fresh_world)
      = Raise OverflowError)
  /\
  (0 < JITTER_RANGE Scenario.negative_start
   /\ res (_jitter_time Scenario.negative_start (seconds 1000)
             Scenario.fresh_world)
      = Return (seconds 550)
   /\ seconds 550 < seconds 1000).
Proof. repeat split. Qed.

(** The jitter of the scenario's default globals, run: half of the range
    on top of the start. *)
Example jitter_time_defaults_run :
  res (_jitter_time Scenario.defaults (seconds 10) Scenario.fresh_world)
  = Return (seconds 10 + minutes 5 + seconds 150).
Proof. vm_compute. reflexivity. Qed.

(** [_jitter_time] touches nothing but the count of random draws; it
    returns a jittered time or raises [OverflowError], the latter only
    when the jitter does not fit the range of [datetime]. *)
Lemma jitter_time_cases {T} (g : globals T) (w : World T)
    (time : datetime) :
  exists w',
    _cached_value w' = _cached_value w
    /\ same_coordination w w'
    /\ supplier_calls w' = supplier_calls w
    /\ clock_reads w' = clock_reads w
    /\ ((exists t',
           _jitter_time g time w = mkOutcome (Return t') w' []
           /\ (random_in_unit_interval g -> jittered g time t'))
        \/ (_jitter_time g time w = mkOutcome (Raise OverflowError) w' []
            /\ 0 < JITTER_RANGE g
            /\ ~ (random_in_unit_interval g /\ jitter_fits g (Some time)))).
Proof.
  destruct (Z.le_gt_cases (JITTER_RANGE g) 0) as [Hoff|Hon].
  - exists w. rewrite (jitter_time_off g w time Hoff).
    repeat split. left. exists time. split; [reflexivity|].
    intros _. unfold jittered.
    destruct (JITTER_RANGE g <=? 0) eqn:Hle; [reflexivity|].
    apply Z.leb_gt in Hle. lia.
  - exists (set_random_draws (S (random_draws w)) w).
    pose proof (jitter_amount_nonneg (random_random g (random_draws w))
                  (total_seconds (JITTER_RANGE g))) as Hlow.
    fold (next_jitter g w) in Hlow.
    assert (Hhigh : random_in_unit_interval g ->
                    next_jitter g w <= JITTER_RANGE g).
    { intros Hrand. destruct (Hrand (random_draws w)) as [Hu0 Hu1].
      exact (jitter_amount_le_range _ _ Hon Hu0 Hu1). }
    repeat split.
    destruct (jitter_time_on g w time Hon) as [[H1 [H2 E]]|[H1 E]];
      rewrite E.
    + left. eexists. split; [reflexivity|].
      intros Hrand. specialize (Hhigh Hrand). unfold jittered.
      destruct (JITTER_RANGE g <=? 0) eqn:Hle;
        [apply Z.leb_le in Hle; lia | lia].
    + right. split; [reflexivity|]. split; [exact Hon|].
      intros [Hrand Hfits]. specialize (Hhigh Hrand).
      destruct (Hfits Hon) as [Hmin Hmax]. lia.
Qed.

Lemma jitter_optional_cases {T} (g : globals T) (w : World T)
    (time : option datetime) :
  exists w',
    _cached_value w' = _cached_value w
    /\ same_coordination w w'
    /\ supplier_calls w' = supplier_calls w
    /\ clock_reads w' = clock_reads w
    /\ ((exists t',
           jitter_optional g time w = mkOutcome (Return t') w' []
           /\ (time = None -> t' = None)
           /\ (random_in_unit_interval g -> jittered_optional g time t'))
        \/ (jitter_optional g time w = mkOutcome (Raise OverflowError) w' []
            /\ 0 < JITTER_RANGE g
            /\ ~ (random_in_unit_interval g /\ jitter_fits g time))).
Proof.
  unfold jitter_optional. destruct time as [t|].
  - destruct (jitter_time_cases g w t)
      as [w' [Hcv [Hco [Hsc [Hcr [[t' [E Hj]]|[E Hno]]]]]]];
      exists w'; (split; [exact Hcv|]); (split; [exact Hco|]);
      (split; [exact Hsc|]); (split; [exact Hcr|]);
      unfold_monad; rewrite E.
    + left. exists (Some t'). split; [reflexivity|].
      split; [discriminate | exact Hj].
    + right. split; [reflexivity | exact Hno].
  - exists w. repeat split. left. exists None. repeat split.
Qed.

(** [_handle_fetched_success] either installs a snapshot with the fetched
    value and jittered times, or raises [OverflowError] from the jitter
    transform and leaves the cached snapshot as it was. *)
Lemma handle_fetched_success_cases {T} (g : globals T) (w : World T)
    (refreshed_value : RefreshResult T) :
  exists w',
    same_coordination w w'
    /\ supplier_calls w' = supplier_calls w
    /\ clock_reads w' = clock_reads w
    /\ ((exists s p,
           _handle_fetched_success g refreshed_value w
           = mkOutcome (Return tt) w' []
           /\ _cached_value w'
              = Some (mkRefreshResult (value refreshed_value) s p)
           /\ (stale_time refreshed_value = None -> s = None)
           /\ (prefetch_time refreshed_value = None -> p = None)
           /\ (random_in_unit_interval g ->
               jittered_optional g (stale_time refreshed_value) s
               /\ jittered_optional g (prefetch_time refreshed_value) p))
        \/ (_handle_fetched_success g refreshed_value w
            = mkOutcome (Raise OverflowError) w' []
            /\ _cached_value w' = _cached_value w
            /\ 0 < JITTER_RANGE g
            /\ ~ (random_in_unit_interval g
                  /\ jitter_fits g (stale_time refreshed_value)
                  /\ jitter_fits g (prefetch_time refreshed_value)))).
Proof.
  unfold _handle_fetched_success.
  destruct (jitter_optional_cases g w (stale_time refreshed_value))
    as [w1 [Hcv1 [Hco1 [Hsc1 [Hcr1 [[s [E1 [Hn1 Hj1]]]|[E1 [Hon1 Hno1]]]]]]]].
  - destruct (jitter_optional_cases g w1 (prefetch_time refreshed_value))
      as [w2 [Hcv2 [Hco2 [Hsc2 [Hcr2 [[p [E2 [Hn2 Hj2]]]|[E2 [Hon2 Hno2]]]]]]]].
    + exists (set_cached_value
                (Some (mkRefreshResult (value refreshed_value) s p)) w2).
      split.
      { apply (same_coordination_trans w w1); [exact Hco1|].
        apply (same_coordination_trans w1 w2); [exact Hco2|]. repeat split. }
      split; [cbn; congruence|]. split; [cbn; congruence|].
      left. exists s, p. unfold_monad. rewrite E1. cbn. rewrite E2. cbn.
      split; [reflexivity|]. split; [reflexivity|].
      split; [exact Hn1|]. split; [exact Hn2|].
      intros Hrand. split; [exact (Hj1 Hrand) | exact (Hj2 Hrand)].
    + exists w2.
      split; [apply (same_coordination_trans w w1); assumption|].
      split; [congruence|]. split; [congruence|].
      right. unfold_monad. rewrite E1. cbn. rewrite E2. cbn.
      split; [reflexivity|]. split; [congruence|]. split; [exact Hon2|].
      intros [Hrand [_ Hfits]]. apply Hno2. split; assumption.
  - exists w1. split; [exact Hco1|]. split; [exact Hsc1|].
    split; [exact Hcr1|].
    right. unfold_monad. rewrite E1. cbn.
    split; [reflexivity|]. split; [exact Hcv1|]. split; [exact Hon1|].
    intros [Hrand [Hfits _]]. apply Hno1. split; assumption.
Qed.

(** ** The refresh routine, case by case *)

Ltac unfold_supplier :=
  unfold get, strategy_prefetch, invoke, _refresh_cache, _handle_fetch_failure,
    _handle_fetched_success, jitter_optional, _jitter_time,
    _should_initiate_cache_prefetch, _cache_is_stale, draw_random,
    call_value_supplier, clock_now in *.



(** The lock is held: the acquire times out. *)
Lemma refresh_cache_timeout {T} (g : globals T) (self : t T) (w : World T) :
  _refresh_lock w = true ->
  _refresh_cache g self w
  = mkOutcome (Return tt) w [Log ERROR msg_lock_timeout].
Proof.
  intros Hlock. unfold_supplier. unfold_primitives. unfold_monad. cbn.
  rewrite Hlock. reflexivity.
Qed.

(** The lock is free and the double check finds the snapshot fresh. *)
Lemma refresh_cache_fresh {T} (g : globals T) (self : t T) (w : World T)
    (r : RefreshResult T) (ts : datetime) :
  _refresh_lock w = false ->
  _cached_value w = Some r ->
  stale_time r = Some ts ->
  (_clock self (clock_reads w) >? ts) = false ->
  _refresh_cache g self w = mkOutcome (Return tt) (tick_clock w) [].
Proof.
  intros Hlock Hcv Hst Hclk. unfold_supplier. unfold_primitives.
  unfold_monad. unfold tick_clock.
  destruct w as [cv lk fr fp lease q sd cr sc rd]. cbn in *. subst.
  cbn. rewrite Hst. cbn. rewrite Hclk. reflexivity.
Qed.

Lemma refresh_cache_no_stale_time {T} (g : globals T) (self : t T)
    (w : World T) (r : RefreshResult T) :
  _refresh_lock w = false ->
  _cached_value w = Some r ->
  stale_time r = None ->
  _refresh_cache g self w = mkOutcome (Return tt) w [].
Proof.
  intros Hlock Hcv Hst. unfold_supplier. unfold_primitives. unfold_monad.
  destruct w as [cv lk fr fp lease q sd cr sc rd]. cbn in *. subst.
  cbn. rewrite Hst. reflexivity.
Qed.

(** The lock is free, the double check finds the snapshot stale and the
    value supplier raises. *)
Lemma refresh_cache_failure {T} (g : globals T) (self : t T) (w : World T)
    (r : RefreshResult T) (ts : datetime) (e : exn) :
  _refresh_lock w = false ->
  _cached_value w = Some r ->
  stale_time r = Some ts ->
  (_clock self (clock_reads w) >? ts) = true ->
  _value_supplier self (supplier_calls w) = Raise e ->
  _refresh_cache g self w
  = match _stale_value_behavior self with
    | STRICT =>
        mkOutcome (Raise (CacheException e)) (tick_supplier (tick_clock w))
          [SupplierCalled (supplier_calls w)]
    | ALLOW =>
        mkOutcome (Return tt) (tick_supplier (tick_clock w))
          [SupplierCalled (supplier_calls w);
           Log INFO msg_old_value]
    end.
Proof.
  intros Hlock Hcv Hst Hclk Hsup. unfold_supplier. unfold_primitives.
  unfold_monad. unfold tick_supplier, tick_clock.
  destruct w as [cv lk fr fp lease q sd cr sc rd]. cbn in *. subst.
  cbn. rewrite Hst. cbn. rewrite Hclk. cbn. rewrite Hsup. cbn.
  destruct (_stale_value_behavior self); reflexivity.
Qed.

(** The same with nothing cached yet: the staleness test does not read the
    clock. *)
Lemma refresh_cache_failure_empty {T} (g : globals T) (self : t T)
    (w : World T) (e : exn) :
  _refresh_lock w = false ->
  _cached_value w = None ->
  _value_supplier self (supplier_calls w) = Raise e ->
  _refresh_cache g self w
  = match _stale_value_behavior self with
    | STRICT =>
        mkOutcome (Raise (CacheException e)) (tick_supplier w)
          [SupplierCalled (supplier_calls w)]
    | ALLOW =>
        mkOutcome (Return tt) (tick_supplier w)
          [SupplierCalled (supplier_calls w);
           Log INFO msg_old_value]
    end.
Proof.
  intros Hlock Hcv Hsup. unfold_supplier. unfold_primitives.
  unfold_monad. unfold tick_supplier.
  destruct w as [cv lk fr fp lease q sd cr sc rd]. cbn in *. subst.
  cbn. rewrite Hsup. cbn.
  destruct (_stale_value_behavior self); reflexivity.
Qed.


(** The lock is free, the staleness test says "stale" and the value
    supplier returns: what the routine does is decided by
    [_handle_fetched_success]. *)
Lemma refresh_cache_fetched {T} (g : globals T) (self : t T)
    (w w0 : World T) (r' : RefreshResult T) :
  _refresh_lock w = false ->
  stale_in self w w0 ->
  _value_supplier self (supplier_calls w) = Return r' ->
  let h := _handle_fetched_success g r' (fetching w0) in
  _refresh_cache g self w
  = match res h with
    | Return _ =>
        mkOutcome (Return tt) (set_refresh_lock false (st h))
          (SupplierCalled (supplier_calls w) :: evs h)
    | Raise e =>
        match _stale_value_behavior self with
        | STRICT =>
            mkOutcome (Raise (CacheException e))
              (set_refresh_lock false (st h))
              (SupplierCalled (supplier_calls w) :: evs h)
        | ALLOW =>
            mkOutcome (Return tt) (set_refresh_lock false (st h))
              (SupplierCalled (supplier_calls w) :: evs h
               ++ [Log INFO msg_old_value])
        end
    end.
Proof.
  intros Hlock Hstale Hsup. cbn zeta.
  unfold _refresh_cache, _cache_is_stale, call_value_supplier, clock_now,
    _handle_fetch_failure, fetching, tick_supplier, tick_clock, stale_in in *.
  unfold_primitives. unfold_monad.
  destruct w as [cv lk fr fp lease q sd cr sc rd].
  cbn -[_handle_fetched_success] in *. subst.
  destruct Hstale as [[-> ->] | [r [ts [-> [Hst [Hclk ->]]]]]];
    unfold tick_clock; cbn -[_handle_fetched_success].
  - rewrite Hsup. cbn -[_handle_fetched_success].
    match goal with |- context [_handle_fetched_success g r' ?W] =>
      destruct (_handle_fetched_success g r' W) as [[[]|e] w1 e1]
    end; cbn; [rewrite app_nil_r; reflexivity|].
    destruct (_stale_value_behavior self); cbn;
      rewrite ?app_nil_r; reflexivity.
  - rewrite Hst. cbn -[_handle_fetched_success]. rewrite Hclk.
    cbn -[_handle_fetched_success]. rewrite Hsup.
    unfold set_supplier_calls, set_clock_reads, set_refresh_lock.
    cbn -[_handle_fetched_success].
    match goal with |- context [_handle_fetched_success g r' ?W] =>
      destruct (_handle_fetched_success g r' W) as [[[]|e] w1 e1]
    end; cbn; [rewrite app_nil_r; reflexivity|].
    destruct (_stale_value_behavior self); cbn;
      rewrite ?app_nil_r; reflexivity.
Qed.

(** The two ways this can end: the new snapshot is installed; or the
    jitter transform overflows, which counts as a failed fetch. *)
Lemma refresh_cache_fetched_cases {T} (g : globals T) (self : t T)
    (w w0 : World T) (r' : RefreshResult T) :
  _refresh_lock w = false ->
  stale_in self w w0 ->
  _value_supplier self (supplier_calls w) = Return r' ->
  exists w',
    same_coordination w w'
    /\ supplier_calls w' = S (supplier_calls w)
    /\ clock_reads w' = clock_reads w0
    /\ ((exists s p,
           _refresh_cache g self w
           = mkOutcome (Return tt) w' [SupplierCalled (supplier_calls w)]
           /\ _cached_value w' = Some (mkRefreshResult (value r') s p)
           /\ (stale_time r' = None -> s = None)
           /\ (prefetch_time r' = None -> p = None)
           /\ (random_in_unit_interval g ->
               jittered_optional g (stale_time r') s
               /\ jittered_optional g (prefetch_time r') p))
        \/ (_cached_value w' = _cached_value w
            /\ 0 < JITTER_RANGE g
            /\ ~ (random_in_unit_interval g
                  /\ jitter_fits g (stale_time r')
                  /\ jitter_fits g (prefetch_time r'))
            /\ _refresh_cache g self w
               = match _stale_value_behavior self with
                 | STRICT =>
                     mkOutcome (Raise (CacheException OverflowError)) w'
                       [SupplierCalled (supplier_calls w)]
                 | ALLOW =>
                     mkOutcome (Return tt) w'
                       [SupplierCalled (supplier_calls w);
                        Log INFO msg_old_value]
                 end)).
Proof.
  intros Hlock Hstale Hsup.
  rewrite (refresh_cache_fetched g self w w0 r' Hlock Hstale Hsup).
  assert (Hw0 : same_coordination w w0 /\ supplier_calls w0 = supplier_calls w
                /\ _cached_value w0 = _cached_value w).
  { destruct Hstale as [[_ ->] | [r [ts [_ [_ [_ ->]]]]]]; repeat split. }
  destruct Hw0 as [[Hl0 [H1 [H2 [H3 [H4 H5]]]]] [Hs0 Hc0]].
  destruct (handle_fetched_success_cases g (fetching w0) r')
    as [w1 [[_ [K1 [K2 [K3 [K4 K5]]]]] [Hsc [Hcr Hcases]]]].
  cbn in K1, K2, K3, K4, K5, Hsc, Hcr.
  exists (set_refresh_lock false w1).
  split; [unfold same_coordination; cbn; repeat split; congruence|].
  split; [cbn; congruence|]. split; [cbn; congruence|].
  destruct Hcases as [[s [p [E [Hcv Hrest]]]] | [E [Hcv [Hon Hno]]]];
    rewrite E; cbn [res st evs].
  - left. exists s, p. split; [reflexivity|]. split; [exact Hcv | exact Hrest].
  - right. split; [cbn in *; congruence|]. split; [exact Hon|].
    split; [exact Hno|].
    destruct (_stale_value_behavior self); reflexivity.
Qed.

(** A stale snapshot and a free lock: the value supplier is called, and
    that is the first thing the routine lets the world see. *)
Lemma refresh_cache_calls_supplier {T} (g : globals T) (self : t T)
    (w : World T) (r : RefreshResult T) (ts : datetime) :
  _refresh_lock w = false ->
  _cached_value w = Some r ->
  stale_time r = Some ts ->
  (_clock self (clock_reads w) >? ts) = true ->
  exists rest,
    evs (_refresh_cache g self w) = SupplierCalled (supplier_calls w) :: rest.
Proof.
  intros Hlock Hcv Hst Hclk.
  destruct (_value_supplier self (supplier_calls w)) as [r'|e] eqn:Hsup.
  - rewrite (refresh_cache_fetched g self w (tick_clock w) r' Hlock)
      by (try exact Hsup; right; exists r, ts; auto).
    cbn zeta.
    destruct (res (_handle_fetched_success g r' (fetching (tick_clock w))));
      [|destruct (_stale_value_behavior self)]; cbn; eexists; reflexivity.
  - rewrite (refresh_cache_failure g self w r ts e Hlock Hcv Hst Hclk Hsup).
    destruct (_stale_value_behavior self); cbn; eexists; reflexivity.
Qed.

(** ** [get], step by step *)

Lemma get_unfold {T} (g : globals T) (self : t T) :
  get g self
  = (local_cached_value <- gets _cached_value ;;
     stale <- _cache_is_stale self local_cached_value ;;
     local_cached_value <-
       (if stale then _refresh_cache g self ;; gets _cached_value
        else ret local_cached_value) ;;
     match local_cached_value with
     | None => raise ConcurrentOperationException
     | Some r => serve g self r
     end).
Proof. reflexivity. Qed.

Ltac step_get :=
  rewrite get_unfold;
  unfold _cache_is_stale, clock_now, after_refresh; unfold_monad;
  cbn -[_refresh_cache serve].

(** A snapshot that is not stale is served as it is. *)
Lemma get_fresh {T} (g : globals T) (self : t T) (w : World T)
    (r : RefreshResult T) (ts : datetime) :
  _cached_value w = Some r ->
  stale_time r = Some ts ->
  (_clock self (clock_reads w) >? ts) = false ->
  get g self w = serve g self r (tick_clock w).
Proof.
  intros Hcv Hst Hclk. step_get.
  rewrite Hcv. cbn -[_refresh_cache serve].
  rewrite Hst. cbn -[_refresh_cache serve]. rewrite Hclk.
  cbn -[_refresh_cache serve]. fold (tick_clock w).
  destruct (serve g self r (tick_clock w)); reflexivity.
Qed.

Lemma get_no_stale_time {T} (g : globals T) (self : t T) (w : World T)
    (r : RefreshResult T) :
  _cached_value w = Some r ->
  stale_time r = None ->
  get g self w = serve g self r w.
Proof.
  intros Hcv Hst. step_get.
  rewrite Hcv. cbn -[_refresh_cache serve].
  rewrite Hst. cbn -[_refresh_cache serve].
  destruct (serve g self r w); reflexivity.
Qed.

(** A stale snapshot: the refresh routine runs first. *)
Lemma get_stale {T} (g : globals T) (self : t T) (w : World T)
    (r : RefreshResult T) (ts : datetime) :
  _cached_value w = Some r ->
  stale_time r = Some ts ->
  (_clock self (clock_reads w) >? ts) = true ->
  get g self w = after_refresh g self (_refresh_cache g self (tick_clock w)).
Proof.
  intros Hcv Hst Hclk. step_get.
  rewrite Hcv. cbn -[_refresh_cache serve].
  rewrite Hst. cbn -[_refresh_cache serve]. rewrite Hclk.
  cbn -[_refresh_cache serve]. fold (tick_clock w).
  destruct (_refresh_cache g self (tick_clock w)) as [[[]|e] w1 e1];
    cbn -[serve]; [|reflexivity].
  destruct (_cached_value w1) as [r1|]; cbn -[serve].
  - destruct (serve g self r1 w1); cbn. rewrite app_nil_r. reflexivity.
  - rewrite !app_nil_r. reflexivity.
Qed.

(** Nothing cached: the refresh routine runs first, and the clock is not
    read before it. *)
Lemma get_empty {T} (g : globals T) (self : t T) (w : World T) :
  _cached_value w = None ->
  get g self w = after_refresh g self (_refresh_cache g self w).
Proof.
  intros Hcv. step_get.
  rewrite Hcv. cbn -[_refresh_cache serve].
  destruct (_refresh_cache g self w) as [[[]|e] w1 e1];
    cbn -[serve]; [|reflexivity].
  destruct (_cached_value w1) as [r1|]; cbn -[serve].
  - destruct (serve g self r1 w1); cbn. rewrite app_nil_r. reflexivity.
  - rewrite !app_nil_r. reflexivity.
Qed.

Lemma after_refresh_evs {T} (g : globals T) (self : t T)
    (o : outcome T unit) :
  exists rest, evs (after_refresh g self o) = evs o ++ rest.
Proof.
  unfold after_refresh.
  destruct (res o) as [u|e].
  - destruct (_cached_value (st o)); cbn.
    + eexists; reflexivity.
    + exists []. rewrite app_nil_r. reflexivity.
  - exists []. rewrite app_nil_r. reflexivity.
Qed.

Lemma after_refresh_raises {T} (g : globals T) (self : t T)
    (o : outcome T unit) (e : exn) :
  res o = Raise e ->
  after_refresh g self o = mkOutcome (Raise e) (st o) (evs o).
Proof. intros H. unfold after_refresh. rewrite H. reflexivity. Qed.

Lemma Zgtb_of_gt (a b : Z) : a > b -> (a >? b) = true.
Proof. intros H. apply Z.gtb_lt. lia. Qed.

Lemma Zgtb_of_le (a b : Z) : a <= b -> (a >? b) = false.
Proof. intros H. rewrite Z.gtb_ltb. apply Z.ltb_ge. exact H. Qed.

(** C3.  Policy STRICT, a stale snapshot cached, the lock free, and the
    value supplier raises [e]: [get] raises [CacheException] with cause
    [e]; the supplier was called once; the world afterwards differs from
    the one before only in the oracle counters, so the snapshot is the
    same and the lock is free; and the next [get] calls the value supplier
    again. *)
Theorem strict_failure_raises_and_keeps_snapshot {T} (g : globals T)
    (self : t T) (w : World T) (r : RefreshResult T) (ts : datetime)
    (e : exn) :
  _stale_value_behavior self = STRICT ->
  _cached_value w = Some r ->
  stale_time r = Some ts ->
  (forall n, (clock_reads w <= n)%nat -> _clock self n > ts) ->
  _refresh_lock w = false ->
  _value_supplier self (supplier_calls w) = Raise e ->
  let o := get g self w in
  res o = Raise (CacheException e)
  /\ evs o = [SupplierCalled (supplier_calls w)]
  /\ st o = tick_supplier (tick_clock (tick_clock w))
  /\ _cached_value (st o) = Some r
  /\ _refresh_lock (st o) = false
  /\ In (SupplierCalled (S (supplier_calls w))) (evs (get g self (st o))).
Proof.
  intros Hstrict Hcv Hst Hstale Hlock Hsup. cbn zeta.
  assert (Hc0 : (_clock self (clock_reads w) >? ts) = true)
    by (apply Zgtb_of_gt, Hstale; lia).
  assert (Hc1 : (_clock self (clock_reads (tick_clock w)) >? ts) = true)
    by (apply Zgtb_of_gt, Hstale; cbn; lia).
  pose proof (refresh_cache_failure g self (tick_clock w) r ts e
                Hlock Hcv Hst Hc1 Hsup) as Hrefresh.
  rewrite Hstrict in Hrefresh.
  rewrite (get_stale g self w r ts Hcv Hst Hc0).
  rewrite (after_refresh_raises g self _ (CacheException e))
    by (rewrite Hrefresh; reflexivity).
  rewrite Hrefresh. cbn [res st evs].
  repeat split; try assumption.
  set (w' := tick_supplier (tick_clock (tick_clock w))).
  assert (Hc2 : (_clock self (clock_reads w') >? ts) = true)
    by (apply Zgtb_of_gt, Hstale; cbn; lia).
  assert (Hc3 : (_clock self (clock_reads (tick_clock w')) >? ts) = true)
    by (apply Zgtb_of_gt, Hstale; cbn; lia).
  rewrite (get_stale g self w' r ts Hcv Hst Hc2).
  destruct (after_refresh_evs g self (_refresh_cache g self (tick_clock w')))
    as [rest Hget].
  destruct (refresh_cache_calls_supplier g self (tick_clock w') r ts
              Hlock Hcv Hst Hc3) as [rest' Hcall].
  rewrite Hget, Hcall. left. reflexivity.
Qed.

Lemma strict_failure_raises_and_keeps_snapshot_witness :
  let self := mk Scenario.failing_supplier (Some OneCallerBlocks)
                Scenario.clock_6s STRICT in
  let w := Scenario.with_cache Scenario.old_snapshot in
  res (get Scenario.defaults self w)
  = Raise (CacheException (Exception "Refresh failed"))
  /\ _cached_value (st (get Scenario.defaults self w))
     = Some Scenario.old_snapshot.
Proof.
  cbn zeta.
  assert (Hstale : forall n : nat,
            (clock_reads (Scenario.with_cache Scenario.old_snapshot) <= n)%nat ->
            Scenario.clock_6s n > seconds 1)
    by (intros n _; reflexivity).
  pose proof (strict_failure_raises_and_keeps_snapshot Scenario.defaults
    (mk Scenario.failing_supplier (Some OneCallerBlocks)
        Scenario.clock_6s STRICT)
    (Scenario.with_cache Scenario.old_snapshot)
    Scenario.old_snapshot (seconds 1) (Exception "Refresh failed")
    eq_refl eq_refl eq_refl Hstale eq_refl eq_refl) as H.
  cbn zeta in H.
  split; [exact (proj1 H) | exact (proj1 (proj2 (proj2 (proj2 H))))].
Defined.

(** ** The serving step *)

Lemma serve_no_prefetch_time {T} (g : globals T) (self : t T) (w : World T)
    (r : RefreshResult T) :
  prefetch_time r = None ->
  serve g self r w = mkOutcome (Return (value r)) w [].
Proof.
  intros Hpt. unfold serve, _should_initiate_cache_prefetch.
  rewrite Hpt. reflexivity.
Qed.

Lemma serve_not_due {T} (g : globals T) (self : t T) (w : World T)
    (r : RefreshResult T) (tp : datetime) :
  prefetch_time r = Some tp ->
  (_clock self (clock_reads w) >? tp) = false ->
  serve g self r w = mkOutcome (Return (value r)) (tick_clock w) [].
Proof.
  intros Hpt Hclk. unfold serve, _should_initiate_cache_prefetch, clock_now.
  rewrite Hpt. unfold_monad. cbn -[strategy_prefetch].
  rewrite Hclk. reflexivity.
Qed.

Lemma serve_due {T} (g : globals T) (self : t T) (w : World T)
    (r : RefreshResult T) (tp : datetime) :
  prefetch_time r = Some tp ->
  (_clock self (clock_reads w) >? tp) = true ->
  let o := strategy_prefetch g self refresh_cache_method (tick_clock w) in
  serve g self r w
  = mkOutcome (match res o with
               | Return _ => Return (value r)
               | Raise e => Raise e
               end) (st o) (evs o).
Proof.
  intros Hpt Hclk. unfold serve, _should_initiate_cache_prefetch, clock_now.
  rewrite Hpt. unfold_monad. cbn -[strategy_prefetch].
  rewrite Hclk. cbn -[strategy_prefetch]. fold (tick_clock w).
  destruct (strategy_prefetch g self refresh_cache_method (tick_clock w))
    as [[[]|e] w1 e1];
    cbn; rewrite ?app_nil_r; reflexivity.
Qed.

(** ** No prefetch strategy *)

(** C10.  A supplier constructed from the value supplier alone has no
    prefetch strategy: the field is [None], no default is put in its place.
    On such a supplier, [get] on a cached snapshot that is not stale and
    whose prefetch time is set and has passed reaches the prefetch
    dispatch and raises [AttributeError]; the value supplier is not
    called and the snapshot stays as it is. *)
Theorem no_strategy_prefetch_raises_attribute_error {T} (g : globals T)
    (value_supplier : nat -> result (RefreshResult T)) (w0 : World T) :
  res (construct g value_supplier w0)
  = Return (mk value_supplier None (_get_current_time g) ALLOW)
  /\
  forall (self : t T) (w : World T) (r : RefreshResult T) (tp : datetime),
    _prefetch_strategy self = None ->
    _cached_value w = Some r ->
    (forall ts n, stale_time r = Some ts -> (clock_reads w <= n)%nat ->
                  _clock self n <= ts) ->
    prefetch_time r = Some tp ->
    (forall n, (clock_reads w <= n)%nat -> _clock self n > tp) ->
    let o := get g self w in
    res o = Raise (AttributeError
                     msg_none_has_no_prefetch)
    /\ _cached_value (st o) = Some r
    /\ supplier_calls (st o) = supplier_calls w
    /\ evs o = [].
Proof.
  split; [reflexivity|].
  intros self w r tp Hnone Hcv Hfresh Hpt Hdue. cbn zeta.
  destruct (stale_time r) as [ts|] eqn:Hst.
  - assert (Hc0 : (_clock self (clock_reads w) >? ts) = false).
    { apply Zgtb_of_le. apply (Hfresh ts); [reflexivity | lia]. }
    rewrite (get_fresh g self w r ts Hcv Hst Hc0).
    assert (Hc1 : (_clock self (clock_reads (tick_clock w)) >? tp) = true)
      by (apply Zgtb_of_gt, Hdue; cbn; lia).
    rewrite (serve_due g self (tick_clock w) r tp Hpt Hc1).
    unfold strategy_prefetch. rewrite Hnone. cbn.
    repeat split; assumption.
  - rewrite (get_no_stale_time g self w r Hcv Hst).
    assert (Hc1 : (_clock self (clock_reads w) >? tp) = true)
      by (apply Zgtb_of_gt, Hdue; lia).
    rewrite (serve_due g self w r tp Hpt Hc1).
    unfold strategy_prefetch. rewrite Hnone. cbn.
    repeat split; assumption.
Qed.

Lemma no_strategy_prefetch_raises_attribute_error_witness :
  res (get Scenario.no_jitter
         (mk Scenario.v1_then_v2 None Scenario.clock_6s ALLOW)
         (Scenario.with_cache Scenario.v1_snapshot))
  = Raise (AttributeError msg_none_has_no_prefetch).
Proof.
  refine (proj1 (proj2 (no_strategy_prefetch_raises_attribute_error
            Scenario.no_jitter Scenario.v1_then_v2 Scenario.fresh_world)
          (mk Scenario.v1_then_v2 None Scenario.clock_6s ALLOW)
          (Scenario.with_cache Scenario.v1_snapshot)
          Scenario.v1_snapshot (seconds 5)
          eq_refl eq_refl _ eq_refl _)).
  - intros ts n Hts _. injection Hts as <-. discriminate.
  - intros n _. reflexivity.
Defined.

(** ** What the refresh routine can and cannot do *)

(** The lock is free, the snapshot is missing or stale, and the value
    supplier returns: a snapshot with the new value is cached, or the
    jitter transform overflows and the routine ends as after a failed
    fetch. *)
Lemma refresh_cache_fetched_outcome {T} (g : globals T) (self : t T)
    (w w0 : World T) (r' : RefreshResult T) :
  _refresh_lock w = false ->
  stale_in self w w0 ->
  _value_supplier self (supplier_calls w) = Return r' ->
  let o := _refresh_cache g self w in
  (res o = Return tt
   /\ (_cached_value (st o) = _cached_value w
       \/ exists r'', _cached_value (st o) = Some r''))
  \/ (_stale_value_behavior self = STRICT
      /\ (exists cause, res o = Raise (CacheException cause))
      /\ _cached_value (st o) = _cached_value w).
Proof.
  intros Hlock Hstale Hsup. cbn zeta.
  destruct (refresh_cache_fetched_cases g self w w0 r' Hlock Hstale Hsup)
    as [w' [_ [_ [_ [[s [p [E [Hnew _]]]] | [Hsame [_ [_ E]]]]]]]];
    rewrite E.
  - left. cbn. split; [reflexivity|]. right. eexists. exact Hnew.
  - destruct (_stale_value_behavior self); cbn.
    + right. split; [reflexivity|]. split; [eexists; reflexivity|].
      exact Hsame.
    + left. split; [reflexivity|]. left. exact Hsame.
Qed.

(** Every run of the refresh routine ends in one of two ways: it returns,
    with the snapshot as before or a new one in its place; or, under
    STRICT only, it raises a [CacheException] and the snapshot is as
    before. *)
Lemma refresh_cache_cases {T} (g : globals T) (self : t T) (w : World T) :
  let o := _refresh_cache g self w in
  (res o = Return tt
   /\ (_cached_value (st o) = _cached_value w
       \/ exists r', _cached_value (st o) = Some r'))
  \/ (_stale_value_behavior self = STRICT
      /\ (exists cause, res o = Raise (CacheException cause))
      /\ _cached_value (st o) = _cached_value w).
Proof.
  cbn zeta.
  destruct (_refresh_lock w) eqn:Hlock.
  { rewrite (refresh_cache_timeout g self w Hlock). cbn. auto. }
  destruct (_cached_value w) as [r|] eqn:Hcv.
  - destruct (stale_time r) as [ts|] eqn:Hst.
    + destruct (_clock self (clock_reads w) >? ts) eqn:Hclk.
      * destruct (_value_supplier self (supplier_calls w)) as [r'|e] eqn:Hsup.
        -- rewrite <- Hcv.
           apply (refresh_cache_fetched_outcome g self w (tick_clock w) r'
                    Hlock); [|exact Hsup].
           right. exists r, ts. auto.
        -- rewrite (refresh_cache_failure g self w r ts e
                      Hlock Hcv Hst Hclk Hsup).
           destruct (_stale_value_behavior self); cbn.
           ++ right. split; [reflexivity|]. split; [eexists; reflexivity|].
              exact Hcv.
           ++ left. split; [reflexivity|]. left. exact Hcv.
      * rewrite (refresh_cache_fresh g self w r ts Hlock Hcv Hst Hclk).
        cbn. left. split; [reflexivity|]. left. exact Hcv.
    + rewrite (refresh_cache_no_stale_time g self w r Hlock Hcv Hst).
      cbn. left. split; [reflexivity|]. left. exact Hcv.
  - destruct (_value_supplier self (supplier_calls w)) as [r'|e] eqn:Hsup.
    + rewrite <- Hcv.
      apply (refresh_cache_fetched_outcome g self w w r' Hlock);
        [|exact Hsup].
      left. auto.
    + rewrite (refresh_cache_failure_empty g self w e Hlock Hcv Hsup).
      destruct (_stale_value_behavior self); cbn.
      * right. split; [reflexivity|]. split; [eexists; reflexivity|].
        exact Hcv.
      * left. split; [reflexivity|]. left. exact Hcv.
Qed.

(** The only exception that leaves the refresh routine is a
    [CacheException], and only under STRICT. *)
Lemma refresh_cache_raises_cache_exception {T} (g : globals T) (self : t T)
    (w : World T) (e : exn) :
  res (_refresh_cache g self w) = Raise e ->
  _stale_value_behavior self = STRICT /\ exists cause, e = CacheException cause.
Proof.
  intros H.
  destruct (refresh_cache_cases g self w)
    as [[Hres _] | [Hstrict [[cause Hres] _]]].
  - congruence.
  - split; [exact Hstrict|]. exists cause. congruence.
Qed.

(** The refresh routine never removes a cached snapshot. *)
Lemma refresh_cache_keeps_snapshot_set {T} (g : globals T) (self : t T)
    (w : World T) :
  _cached_value (st (_refresh_cache g self w)) = None ->
  _cached_value w = None.
Proof.
  intros H.
  destruct (refresh_cache_cases g self w)
    as [[_ [Hsame | [r' Hnew]]] | [_ [_ Hsame]]]; congruence.
Qed.

Lemma non_blocking_prefetch_returns {T} (value_updater : callable)
    (w : World T) :
  res (NonBlockingPrefetchStrategy.prefetch value_updater w) = Return tt.
Proof.
  unfold NonBlockingPrefetchStrategy.prefetch.
  unfold_primitives. unfold_monad. cbn.
  destruct (_concurrent_refresh_lease w); cbn; [reflexivity|].
  destruct (_currently_prefetching w); cbn; [reflexivity|].
  destruct (_executor_shutdown w); reflexivity.
Qed.

Lemma non_blocking_prefetch_keeps_snapshot {T} (value_updater : callable)
    (w : World T) :
  _cached_value (st (NonBlockingPrefetchStrategy.prefetch value_updater w))
  = _cached_value w.
Proof.
  unfold NonBlockingPrefetchStrategy.prefetch.
  unfold_primitives. unfold_monad. cbn.
  destruct (_concurrent_refresh_lease w); cbn; [reflexivity|].
  destruct (_currently_prefetching w); cbn; [reflexivity|].
  destruct (_executor_shutdown w); reflexivity.
Qed.

(** What the prefetch dispatch of [get] can raise. *)
Lemma strategy_prefetch_raises {T} (g : globals T) (self : t T)
    (w : World T) (e : exn) :
  res (strategy_prefetch g self refresh_cache_method w) = Raise e ->
  (_prefetch_strategy self = None
   /\ e = AttributeError msg_none_has_no_prefetch)
  \/ (_stale_value_behavior self = STRICT
      /\ exists cause, e = CacheException cause).
Proof.
  unfold strategy_prefetch.
  destruct (_prefetch_strategy self) as [[|]|] eqn:Hs.
  - destruct (_currently_refreshing w) eqn:Hflag.
    + rewrite (one_caller_blocks_prefetch_busy _ _ w Hflag). discriminate.
    + rewrite (one_caller_blocks_prefetch_idle _ _ w Hflag).
      cbn [res invoke]. intros H. right.
      exact (refresh_cache_raises_cache_exception g self _ e H).
  - rewrite non_blocking_prefetch_returns. discriminate.
  - cbn. intros H. injection H as <-. left. split; reflexivity.
Qed.

Lemma serve_never_raises_concurrent_operation {T} (g : globals T)
    (self : t T) (r : RefreshResult T) (w : World T) :
  res (serve g self r w) <> Raise ConcurrentOperationException.
Proof.
  destruct (prefetch_time r) as [tp|] eqn:Hpt.
  - destruct (_clock self (clock_reads w) >? tp) eqn:Hclk.
    + rewrite (serve_due g self w r tp Hpt Hclk). cbn [res].
      destruct (res (strategy_prefetch g self refresh_cache_method
                       (tick_clock w))) as [u|e] eqn:Hres;
        [discriminate|].
      intros H. injection H as ->.
      destruct (strategy_prefetch_raises g self _ _ Hres)
        as [[_ Habs] | [_ [cause Habs]]]; discriminate.
    + rewrite (serve_not_due g self w r tp Hpt Hclk). discriminate.
  - rewrite (serve_no_prefetch_time g self w r Hpt). discriminate.
Qed.

Lemma after_refresh_concurrent_operation {T} (g : globals T) (self : t T)
    (w : World T) :
  res (after_refresh g self (_refresh_cache g self w))
  = Raise ConcurrentOperationException
  <-> res (_refresh_cache g self w) = Return tt
      /\ _cached_value (st (_refresh_cache g self w)) = None.
Proof.
  unfold after_refresh.
  destruct (res (_refresh_cache g self w)) as [[]|e] eqn:Hres.
  - destruct (_cached_value (st (_refresh_cache g self w))) as [r|] eqn:Hcv.
    + cbn [res]. split.
      * intros H. contradiction (serve_never_raises_concurrent_operation
                                   g self r _ H).
      * intros [_ H]. discriminate.
    + cbn [res]. split; [intros _; split; reflexivity | reflexivity].
  - cbn [res]. split.
    + intros H. injection H as ->.
      destruct (refresh_cache_raises_cache_exception g self w _ Hres)
        as [_ [cause Habs]]. discriminate.
    + intros [H _]. discriminate.
Qed.

(** ** ConcurrentOperationException *)

Lemma get_with_snapshot_never_concurrent_operation {T} (g : globals T)
    (self : t T) (w : World T) (r : RefreshResult T) :
  _cached_value w = Some r ->
  res (get g self w) <> Raise ConcurrentOperationException.
Proof.
  intros Hcv.
  destruct (stale_time r) as [ts|] eqn:Hst.
  - destruct (_clock self (clock_reads w) >? ts) eqn:Hclk.
    + rewrite (get_stale g self w r ts Hcv Hst Hclk).
      intros H. apply after_refresh_concurrent_operation in H.
      destruct H as [_ H].
      apply refresh_cache_keeps_snapshot_set in H.
      cbn in H. congruence.
    + rewrite (get_fresh g self w r ts Hcv Hst Hclk).
      apply serve_never_raises_concurrent_operation.
  - rewrite (get_no_stale_time g self w r Hcv Hst).
    apply serve_never_raises_concurrent_operation.
Qed.

(** C6.  [get] raises [ConcurrentOperationException] exactly when nothing
    is cached at entry, the refresh routine of the stale path returns, and
    nothing is cached after it.  In terms of the inputs: nothing is cached
    and either the lock cannot be acquired, or the policy is ALLOW and the
    fetch fails, that is, the value supplier raises, or it returns a
    result that [_handle_fetched_success] cannot install.  The latter
    raises nothing but [OverflowError], and only when the jitter transform
    leaves the range of [datetime] at one of the times of the result.  With
    a snapshot cached at entry, [get] never raises
    [ConcurrentOperationException]. *)
Theorem concurrent_operation_exception_iff {T} (g : globals T) (self : t T)
    (w : World T) :
  (res (get g self w) = Raise ConcurrentOperationException
   <-> _cached_value w = None
       /\ res (_refresh_cache g self w) = Return tt
       /\ _cached_value (st (_refresh_cache g self w)) = None)
  /\
  (res (get g self w) = Raise ConcurrentOperationException
   <-> _cached_value w = None
       /\ (_refresh_lock w = true
           \/ (_stale_value_behavior self = ALLOW
               /\ ((exists e,
                      _value_supplier self (supplier_calls w) = Raise e)
                   \/ (exists r' e,
                         _value_supplier self (supplier_calls w) = Return r'
                         /\ res (_handle_fetched_success g r' (fetching w))
                            = Raise e)))))
  /\
  (forall r' e,
     res (_handle_fetched_success g r' (fetching w)) = Raise e ->
     e = OverflowError
     /\ ~ (random_in_unit_interval g
           /\ jitter_fits g (stale_time r')
           /\ jitter_fits g (prefetch_time r')))
  /\
  (_cached_value w <> None ->
   res (get g self w) <> Raise ConcurrentOperationException).
Proof.
  assert (Hfirst :
    res (get g self w) = Raise ConcurrentOperationException
    <-> _cached_value w = None
        /\ res (_refresh_cache g self w) = Return tt
        /\ _cached_value (st (_refresh_cache g self w)) = None).
  { destruct (_cached_value w) as [r|] eqn:Hcv.
    - split.
      + intros H.
        contradiction (get_with_snapshot_never_concurrent_operation
                         g self w r Hcv H).
      + intros [H _]. discriminate.
    - rewrite (get_empty g self w Hcv).
      rewrite after_refresh_concurrent_operation. tauto. }
  assert (Hhandle : forall r',
    (exists s p w',
       _handle_fetched_success g r' (fetching w) = mkOutcome (Return tt) w' []
       /\ _cached_value w' = Some (mkRefreshResult (value r') s p))
    \/ (exists w',
          _handle_fetched_success g r' (fetching w)
          = mkOutcome (Raise OverflowError) w' []
          /\ _cached_value w' = _cached_value w
          /\ ~ (random_in_unit_interval g
                /\ jitter_fits g (stale_time r')
                /\ jitter_fits g (prefetch_time r')))).
  { intros r'.
    destruct (handle_fetched_success_cases g (fetching w) r')
      as [w' [_ [_ [_ [[s [p [E [Hcv _]]]] | [E [Hcv [_ Hno]]]]]]]].
    - left. exists s, p, w'. auto.
    - right. exists w'. auto. }
  split; [exact Hfirst|]. split; [|split].
  - rewrite Hfirst. split.
    + intros [Hcv [Hres Hnone]]. split; [exact Hcv|].
      destruct (_refresh_lock w) eqn:Hlock; [left; reflexivity|]. right.
      destruct (_value_supplier self (supplier_calls w)) as [r'|e] eqn:Hsup.
      * rewrite (refresh_cache_fetched g self w w r' Hlock
                   (or_introl (conj Hcv eq_refl)) Hsup) in Hres, Hnone.
        cbn zeta in Hres, Hnone.
        destruct (Hhandle r') as [[s [p [w' [E Hnew]]]] | [w' [E _]]];
          rewrite E in Hres, Hnone; cbn in Hres, Hnone; [congruence|].
        destruct (_stale_value_behavior self); [discriminate|].
        split; [reflexivity|]. right. exists r', OverflowError.
        rewrite E. auto.
      * rewrite (refresh_cache_failure_empty g self w e Hlock Hcv Hsup)
          in Hres.
        destruct (_stale_value_behavior self); cbn in Hres;
          [discriminate|].
        split; [reflexivity|]. left. exists e. reflexivity.
    + intros [Hcv Hcause]. split; [exact Hcv|].
      destruct (_refresh_lock w) eqn:Hlock.
      { rewrite (refresh_cache_timeout g self w Hlock). cbn. auto. }
      destruct Hcause as [Habs | [Hallow [[e Hsup] | [r' [e [Hsup Hraise]]]]]];
        [discriminate | |].
      * rewrite (refresh_cache_failure_empty g self w e Hlock Hcv Hsup).
        rewrite Hallow. cbn. auto.
      * rewrite (refresh_cache_fetched g self w w r' Hlock
                   (or_introl (conj Hcv eq_refl)) Hsup).
        cbn zeta.
        destruct (Hhandle r') as [[s [p [w' [E _]]]] | [w' [E [Hsame _]]]];
          rewrite E in Hraise |- *; [discriminate|].
        rewrite Hallow. cbn. split; [reflexivity|]. congruence.
  - intros r' e Hraise.
    destruct (Hhandle r') as [[s [p [w' [E _]]]] | [w' [E [_ Hno]]]];
      rewrite E in Hraise; [discriminate|].
    injection Hraise as <-. split; [reflexivity | exact Hno].
  - intros Hset H. apply Hfirst in H. destruct H as [H _]. contradiction.
Qed.

Lemma concurrent_operation_exception_iff_witness :
  let self := mk Scenario.failing_supplier (Some OneCallerBlocks)
                Scenario.clock_6s ALLOW in
  let self' := mk Scenario.never_stale_supplier (Some OneCallerBlocks)
                 Scenario.clock_6s ALLOW in
  res (get Scenario.defaults self Scenario.fresh_world)
  = Raise ConcurrentOperationException
  /\ res (get Scenario.defaults self' Scenario.fresh_world)
     = Raise ConcurrentOperationException
  /\ res (get Scenario.defaults self
            (Scenario.with_cache Scenario.old_snapshot))
     <> Raise ConcurrentOperationException.
Proof.
  cbn zeta. split; [|split].
  - apply (proj1 (proj2 (concurrent_operation_exception_iff Scenario.defaults
                          (mk Scenario.failing_supplier (Some OneCallerBlocks)
                             Scenario.clock_6s ALLOW)
                          Scenario.fresh_world))).
    split; [reflexivity|]. right. split; [reflexivity|]. left.
    exists (Exception "Refresh failed"). reflexivity.
  - apply (proj1 (proj2 (concurrent_operation_exception_iff Scenario.defaults
                          (mk Scenario.never_stale_supplier
                             (Some OneCallerBlocks) Scenario.clock_6s ALLOW)
                          Scenario.fresh_world))).
    split; [reflexivity|]. right. split; [reflexivity|]. right.
    exists (mkRefreshResult "v1"%string (Some datetime_max) None),
      OverflowError.
    split; reflexivity.
  - apply (proj2 (proj2 (proj2 (concurrent_operation_exception_iff
                                  Scenario.defaults
                                  (mk Scenario.failing_supplier
                                     (Some OneCallerBlocks)
                                     Scenario.clock_6s ALLOW)
                                  (Scenario.with_cache
                                     Scenario.old_snapshot))))).
    discriminate.
Defined.

(** ** Policy ALLOW with a failing value supplier *)

Lemma stale_and_failing_later {T} (self : t T) (r : RefreshResult T)
    (ts : datetime) (w w' : World T) :
  stale_and_failing self r ts w ->
  _cached_value w' = _cached_value w ->
  (clock_reads w <= clock_reads w')%nat ->
  (supplier_calls w <= supplier_calls w')%nat ->
  stale_and_failing self r ts w'.
Proof.
  intros [Hcv [Hst [Hclk Hsup]]] Hsame Hc Hs.
  split; [congruence|]. split; [exact Hst|]. split.
  - intros n Hn. apply Hclk. lia.
  - intros n Hn. apply Hsup. lia.
Qed.

Lemma refresh_cache_allow_failing {T} (g : globals T) (self : t T)
    (r : RefreshResult T) (ts : datetime) (w : World T) :
  _stale_value_behavior self = ALLOW ->
  stale_and_failing self r ts w ->
  res (_refresh_cache g self w) = Return tt
  /\ stale_and_failing self r ts (st (_refresh_cache g self w)).
Proof.
  intros Hallow Hw. pose proof Hw as [Hcv [Hst [Hclk Hsup]]].
  destruct (_refresh_lock w) eqn:Hlock.
  - rewrite (refresh_cache_timeout g self w Hlock). cbn.
    split; [reflexivity | exact Hw].
  - destruct (Hsup (supplier_calls w) (le_n _)) as [e He].
    assert (Hc : (_clock self (clock_reads w) >? ts) = true)
      by (apply Zgtb_of_gt, Hclk; lia).
    rewrite (refresh_cache_failure g self w r ts e Hlock Hcv Hst Hc He).
    rewrite Hallow. cbn [res st]. split; [reflexivity|].
    apply (stale_and_failing_later self r ts w);
      [exact Hw | reflexivity | |]; cbn; lia.
Qed.

Lemma strategy_prefetch_allow_failing {T} (g : globals T) (self : t T)
    (r : RefreshResult T) (ts : datetime) (w : World T) :
  _stale_value_behavior self = ALLOW ->
  _prefetch_strategy self <> None ->
  stale_and_failing self r ts w ->
  res (strategy_prefetch g self refresh_cache_method w) = Return tt
  /\ _cached_value (st (strategy_prefetch g self refresh_cache_method w))
     = Some r.
Proof.
  intros Hallow Hsome Hw. pose proof Hw as [Hcv _]. unfold strategy_prefetch.
  destruct (_prefetch_strategy self) as [[|]|]; [| |congruence].
  - destruct (_currently_refreshing w) eqn:Hflag.
    + rewrite (one_caller_blocks_prefetch_busy _ _ w Hflag). cbn.
      split; [reflexivity | exact Hcv].
    + rewrite (one_caller_blocks_prefetch_idle _ _ w Hflag).
      cbn [res st invoke].
      destruct (refresh_cache_allow_failing g self r ts
                  (set_currently_refreshing true w) Hallow)
        as [Hres [Hcv' _]].
      { apply (stale_and_failing_later self r ts w);
          [exact Hw | reflexivity | cbn; lia | cbn; lia]. }
      split; [exact Hres | exact Hcv'].
  - split; [apply non_blocking_prefetch_returns|].
    rewrite non_blocking_prefetch_keeps_snapshot. exact Hcv.
Qed.

Lemma serve_allow_failing {T} (g : globals T) (self : t T)
    (r : RefreshResult T) (ts : datetime) (w : World T) :
  _stale_value_behavior self = ALLOW ->
  dispatch_is_safe self r w ->
  stale_and_failing self r ts w ->
  res (serve g self r w) = Return (value r)
  /\ _cached_value (st (serve g self r w)) = Some r.
Proof.
  intros Hallow Hsafe Hw. pose proof Hw as [Hcv _].
  destruct (prefetch_time r) as [tp|] eqn:Hpt.
  - destruct (_clock self (clock_reads w) >? tp) eqn:Hclk.
    + rewrite (serve_due g self w r tp Hpt Hclk). cbn [res st].
      assert (Hsome : _prefetch_strategy self <> None).
      { intros Hnone.
        rewrite (Zgtb_of_le _ _ (Hsafe Hnone tp Hpt _ (le_n _))) in Hclk.
        discriminate. }
      destruct (strategy_prefetch_allow_failing g self r ts (tick_clock w)
                  Hallow Hsome) as [Hres Hcv'].
      { apply (stale_and_failing_later self r ts w);
          [exact Hw | reflexivity | cbn; lia | cbn; lia]. }
      rewrite Hres. split; [reflexivity | exact Hcv'].
    + rewrite (serve_not_due g self w r tp Hpt Hclk). cbn.
      split; [reflexivity | exact Hcv].
  - rewrite (serve_no_prefetch_time g self w r Hpt). cbn.
    split; [reflexivity | exact Hcv].
Qed.

(** C4, as the code has it.  Policy ALLOW, a stale snapshot cached, and a
    value supplier that raises whenever it is called; the supplier has a
    prefetch strategy, or else the prefetch time of the snapshot is not
    passed.  Then [get] raises nothing, returns the value of the snapshot
    that was cached, and that snapshot is still cached afterwards; this
    holds whether or not the refresh lock can be acquired. *)
Theorem allow_failure_serves_stale_value {T} (g : globals T) (self : t T)
    (r : RefreshResult T) (ts : datetime) (w : World T) :
  _stale_value_behavior self = ALLOW ->
  _cached_value w = Some r ->
  stale_time r = Some ts ->
  (forall n, (clock_reads w <= n)%nat -> _clock self n > ts) ->
  (forall n, (supplier_calls w <= n)%nat ->
             exists e, _value_supplier self n = Raise e) ->
  dispatch_is_safe self r w ->
  res (get g self w) = Return (value r)
  /\ _cached_value (st (get g self w)) = Some r.
Proof.
  intros Hallow Hcv Hst Hclk Hsup Hsafe.
  assert (Hw : stale_and_failing self r ts w) by (repeat split; assumption).
  assert (Hc : (_clock self (clock_reads w) >? ts) = true)
    by (apply Zgtb_of_gt, Hclk; lia).
  rewrite (get_stale g self w r ts Hcv Hst Hc).
  destruct (refresh_cache_allow_failing g self r ts (tick_clock w) Hallow)
    as [Hres Hw'].
  { apply (stale_and_failing_later self r ts w);
      [exact Hw | reflexivity | cbn; lia | cbn; lia]. }
  pose proof Hw' as [Hcv' [_ [Hclk' _]]].
  assert (Hsafe' : dispatch_is_safe self r
                     (st (_refresh_cache g self (tick_clock w)))).
  { intros Hnone tp Hpt n Hn. apply (Hsafe Hnone tp Hpt).
    assert (Hmono : (clock_reads w
                     <= clock_reads (st (_refresh_cache g self (tick_clock w))))%nat).
    { destruct (_refresh_lock (tick_clock w)) eqn:Hlock.
      - rewrite (refresh_cache_timeout g self _ Hlock). cbn. lia.
      - destruct (Hsup (supplier_calls (tick_clock w))) as [e He];
          [cbn; lia|].
        assert (Hc1 : (_clock self (clock_reads (tick_clock w)) >? ts) = true)
          by (apply Zgtb_of_gt, Hclk; cbn; lia).
        rewrite (refresh_cache_failure g self (tick_clock w) r ts e
                   Hlock Hcv Hst Hc1 He).
        destruct (_stale_value_behavior self); cbn; lia. }
    lia. }
  destruct (serve_allow_failing g self r ts _ Hallow Hsafe' Hw')
    as [Hserve Hkept].
  unfold after_refresh. rewrite Hres, Hcv'. cbn [res st].
  split; [exact Hserve | exact Hkept].
Qed.

Lemma allow_failure_serves_stale_value_witness :
  let self := mk Scenario.failing_supplier (Some OneCallerBlocks)
                Scenario.clock_6s ALLOW in
  let w := Scenario.with_cache Scenario.old_snapshot_with_prefetch in
  res (get Scenario.defaults self w) = Return "old_value"%string
  /\ _cached_value (st (get Scenario.defaults self w))
     = Some Scenario.old_snapshot_with_prefetch.
Proof.
  cbn zeta.
  refine (allow_failure_serves_stale_value Scenario.defaults
            (mk Scenario.failing_supplier (Some OneCallerBlocks)
                Scenario.clock_6s ALLOW)
            Scenario.old_snapshot_with_prefetch (seconds 2)
            (Scenario.with_cache Scenario.old_snapshot_with_prefetch)
            eq_refl eq_refl eq_refl _ _ _).
  - intros n _. reflexivity.
  - intros n _. exists (Exception "Refresh failed"). reflexivity.
  - intros Hnone. discriminate Hnone.
Defined.

(** C4, as stated, fails: a supplier with policy ALLOW and no prefetch
    strategy (what the constructor gives when the argument is left out), a
    stale snapshot whose prefetch time has passed too, and a value
    supplier that raises.  The stale path swallows the failure, then the
    prefetch dispatch raises [AttributeError]. *)
Lemma allow_failure_without_strategy_raises :
  let self := mk Scenario.failing_supplier None Scenario.clock_6s ALLOW in
  let w := Scenario.with_cache Scenario.old_snapshot_with_prefetch in
  _stale_value_behavior self = ALLOW
  /\ _cached_value w = Some Scenario.old_snapshot_with_prefetch
  /\ Scenario.clock_6s 0 > seconds 2
  /\ res (get Scenario.defaults self w)
     = Raise (AttributeError msg_none_has_no_prefetch)
  /\ evs (get Scenario.defaults self w)
     = [SupplierCalled 0; Log INFO msg_old_value].
Proof. cbn zeta. repeat split. Qed.

(** ** The prefetch path with the blocking strategy *)

(** On a snapshot that is not stale the refresh routine returns, whether
    the lock can be acquired or not. *)
Lemma refresh_cache_not_stale_returns {T} (g : globals T) (self : t T)
    (w : World T) (r : RefreshResult T) :
  _cached_value w = Some r ->
  (forall ts, stale_time r = Some ts ->
              _clock self (clock_reads w) <= ts) ->
  res (_refresh_cache g self w) = Return tt.
Proof.
  intros Hcv Hfresh.
  destruct (_refresh_lock w) eqn:Hlock.
  - rewrite (refresh_cache_timeout g self w Hlock). reflexivity.
  - destruct (stale_time r) as [ts|] eqn:Hst.
    + rewrite (refresh_cache_fresh g self w r ts Hlock Hcv Hst);
        [reflexivity|].
      apply Zgtb_of_le, Hfresh. reflexivity.
    + rewrite (refresh_cache_no_stale_time g self w r Hlock Hcv Hst).
      reflexivity.
Qed.

Lemma serve_blocking_prefetch {T} (g : globals T) (self : t T)
    (w : World T) (r : RefreshResult T) (tp : datetime) :
  _prefetch_strategy self = Some OneCallerBlocks ->
  _cached_value w = Some r ->
  (forall ts n, stale_time r = Some ts -> (clock_reads w <= n)%nat ->
                _clock self n <= ts) ->
  prefetch_time r = Some tp ->
  (forall n, (clock_reads w <= n)%nat -> _clock self n > tp) ->
  _currently_refreshing w = false ->
  let o := serve g self r w in
  res o = Return (value r)
  /\ (exists rest, evs o = Called refresh_cache_method :: rest)
  /\ _currently_refreshing (st o) = false.
Proof.
  intros Hocb Hcv Hfresh Hpt Hdue Hflag. cbn zeta.
  assert (Hc : (_clock self (clock_reads w) >? tp) = true)
    by (apply Zgtb_of_gt, Hdue; lia).
  rewrite (serve_due g self w r tp Hpt Hc). cbn [res st evs].
  unfold strategy_prefetch. rewrite Hocb.
  rewrite (one_caller_blocks_prefetch_idle _ _ (tick_clock w) Hflag).
  cbn [res st evs invoke].
  rewrite (refresh_cache_not_stale_returns g self _ r).
  - repeat split. eexists. reflexivity.
  - exact Hcv.
  - intros ts Hst. apply (Hfresh ts); [exact Hst | cbn; lia].
Qed.

(** C1, as the code has it.  A supplier with the blocking strategy, a
    cached snapshot that is not stale and whose prefetch time has passed,
    the strategy idle: [get] hands the refresh routine to the strategy,
    which runs it on the calling thread before [get] returns; [get] then
    returns the value of the snapshot it read before the dispatch, and the
    strategy is idle again. *)
Theorem blocking_prefetch_serves_snapshot_read_before {T} (g : globals T)
    (self : t T) (w : World T) (r : RefreshResult T) (tp : datetime) :
  _prefetch_strategy self = Some OneCallerBlocks ->
  _cached_value w = Some r ->
  (forall ts n, stale_time r = Some ts -> (clock_reads w <= n)%nat ->
                _clock self n <= ts) ->
  prefetch_time r = Some tp ->
  (forall n, (clock_reads w <= n)%nat -> _clock self n > tp) ->
  _currently_refreshing w = false ->
  let o := get g self w in
  res o = Return (value r)
  /\ (exists rest, evs o = Called refresh_cache_method :: rest)
  /\ _currently_refreshing (st o) = false.
Proof.
  intros Hocb Hcv Hfresh Hpt Hdue Hflag.
  destruct (stale_time r) as [ts|] eqn:Hst.
  - assert (Hc : (_clock self (clock_reads w) >? ts) = false)
      by (apply Zgtb_of_le, (Hfresh ts); [reflexivity | lia]).
    rewrite (get_fresh g self w r ts Hcv Hst Hc).
    apply (serve_blocking_prefetch g self (tick_clock w) r tp);
      try assumption.
    + intros ts' n Hts Hn. rewrite Hst in Hts.
      apply (Hfresh ts' n Hts). cbn in Hn. lia.
    + intros n Hn. apply Hdue. cbn in Hn. lia.
  - rewrite (get_no_stale_time g self w r Hcv Hst).
    apply (serve_blocking_prefetch g self w r tp); try assumption.
    intros ts' n Hts. rewrite Hst in Hts. discriminate.
Qed.

Lemma blocking_prefetch_serves_snapshot_read_before_witness :
  _cached_value Scenario.world_at_t0 = Some Scenario.v1_snapshot
  /\ res (get Scenario.no_jitter Scenario.blocking_supplier
            Scenario.world_at_t0) = Return "v1"%string.
Proof.
  split; [reflexivity|].
  refine (proj1 (blocking_prefetch_serves_snapshot_read_before
                   Scenario.no_jitter Scenario.blocking_supplier
                   Scenario.world_at_t0 Scenario.v1_snapshot (seconds 5)
                   eq_refl eq_refl _ eq_refl _ eq_refl)).
  - intros ts n Hts Hn. injection Hts as <-.
    destruct n as [|n]; [inversion Hn | discriminate].
  - intros n Hn. destruct n as [|n]; [inversion Hn | reflexivity].
Defined.

(** C1, as stated, fails.  The scenario: jitter off, the first [get] at
    [t0] cached [("v1", stale = t0+10s, prefetch = t0+5s)], the producer's
    next value is ["v2"], the strategy is OneCallerBlocks.  The [get] at
    [t0+6s] runs the refresh routine through the strategy and returns
    ["v1"], not ["v2"]; the value supplier is not called a second time and
    the cached snapshot is still the one with ["v1"]. *)
Lemma blocking_prefetch_scenario_returns_v1 :
  let o := get Scenario.no_jitter Scenario.blocking_supplier
             Scenario.world_at_t0 in
  _cached_value Scenario.world_at_t0 = Some Scenario.v1_snapshot
  /\ supplier_calls Scenario.world_at_t0 = 1%nat
  /\ Scenario.v1_then_v2 1
     = Return (mkRefreshResult "v2"%string
                 (Some (seconds 16)) (Some (seconds 11)))
  /\ res o = Return "v1"%string
  /\ res o <> Return "v2"%string
  /\ evs o = [Called refresh_cache_method]
  /\ supplier_calls (st o) = 1%nat
  /\ _cached_value (st o) = Some Scenario.v1_snapshot.
Proof.
  cbn zeta. repeat split. discriminate.
Qed.

(** ** The lock timeout *)

(** While the lock is held by someone else, nothing [get] does can call
    the value supplier or raise a [CacheException]. *)
Lemma non_blocking_prefetch_frame {T} (value_updater : callable)
    (w : World T) :
  same_supplier_state w
    (st (NonBlockingPrefetchStrategy.prefetch value_updater w)).
Proof.
  unfold same_supplier_state, NonBlockingPrefetchStrategy.prefetch.
  unfold_primitives. unfold_monad. cbn.
  destruct (_concurrent_refresh_lease w); cbn; [auto|].
  destruct (_currently_prefetching w); cbn; [auto|].
  destruct (_executor_shutdown w); cbn; auto.
Qed.

Lemma strategy_prefetch_lock_held {T} (g : globals T) (self : t T)
    (w : World T) :
  _refresh_lock w = true ->
  (forall e, res (strategy_prefetch g self refresh_cache_method w)
             <> Raise (CacheException e))
  /\ same_supplier_state w
       (st (strategy_prefetch g self refresh_cache_method w)).
Proof.
  intros Hlock. unfold strategy_prefetch.
  destruct (_prefetch_strategy self) as [[|]|].
  - destruct (_currently_refreshing w) eqn:Hflag.
    + rewrite (one_caller_blocks_prefetch_busy _ _ w Hflag). cbn.
      split; [discriminate | repeat split].
    + rewrite (one_caller_blocks_prefetch_idle _ _ w Hflag).
      cbn [res st invoke].
      rewrite (refresh_cache_timeout g self
                 (set_currently_refreshing true w) Hlock).
      cbn. split; [discriminate | repeat split].
  - split.
    + intros e. rewrite non_blocking_prefetch_returns. discriminate.
    + apply non_blocking_prefetch_frame.
  - cbn. split; [discriminate | repeat split].
Qed.

Lemma serve_lock_held {T} (g : globals T) (self : t T)
    (r : RefreshResult T) (w : World T) :
  _refresh_lock w = true ->
  (forall e, res (serve g self r w) <> Raise (CacheException e))
  /\ same_supplier_state w (st (serve g self r w)).
Proof.
  intros Hlock.
  destruct (prefetch_time r) as [tp|] eqn:Hpt.
  - destruct (_clock self (clock_reads w) >? tp) eqn:Hclk.
    + rewrite (serve_due g self w r tp Hpt Hclk). cbn [res st].
      destruct (strategy_prefetch_lock_held g self (tick_clock w) Hlock)
        as [Hres Hframe].
      split; [|exact Hframe].
      intros e.
      destruct (res (strategy_prefetch g self refresh_cache_method
                       (tick_clock w))) as [u|e'] eqn:Hr;
        [discriminate|].
      intros H. injection H as ->. exact (Hres e eq_refl).
    + rewrite (serve_not_due g self w r tp Hpt Hclk). cbn.
      split; [discriminate | repeat split].
  - rewrite (serve_no_prefetch_time g self w r Hpt). cbn.
    split; [discriminate | repeat split].
Qed.

Lemma after_refresh_lock_held {T} (g : globals T) (self : t T)
    (w : World T) :
  _refresh_lock w = true ->
  let o := after_refresh g self (_refresh_cache g self w) in
  (forall e, res o <> Raise (CacheException e))
  /\ same_supplier_state w (st o).
Proof.
  intros Hlock. cbn zeta.
  rewrite (refresh_cache_timeout g self w Hlock).
  unfold after_refresh. cbn [res st evs].
  destruct (_cached_value w) as [r|].
  - cbn [res st]. apply serve_lock_held. exact Hlock.
  - cbn. split; [discriminate | repeat split].
Qed.

Lemma get_lock_held {T} (g : globals T) (self : t T) (w : World T) :
  _refresh_lock w = true ->
  (forall e, res (get g self w) <> Raise (CacheException e))
  /\ same_supplier_state w (st (get g self w)).
Proof.
  intros Hlock.
  destruct (_cached_value w) as [r|] eqn:Hcv.
  - destruct (stale_time r) as [ts|] eqn:Hst.
    + destruct (_clock self (clock_reads w) >? ts) eqn:Hclk.
      * rewrite (get_stale g self w r ts Hcv Hst Hclk).
        apply (after_refresh_lock_held g self (tick_clock w) Hlock).
      * rewrite (get_fresh g self w r ts Hcv Hst Hclk).
        apply (serve_lock_held g self r (tick_clock w) Hlock).
    + rewrite (get_no_stale_time g self w r Hcv Hst).
      apply (serve_lock_held g self r w Hlock).
  - rewrite (get_empty g self w Hcv).
    apply (after_refresh_lock_held g self w Hlock).
Qed.

(** C2.  When the refresh lock cannot be acquired within the bounded wait,
    [_refresh_cache] returns normally whatever the stale-value policy: the
    world is left exactly as it was (same snapshot, value supplier not
    called) and the only event is the error-level log line.  Seen from
    [get]: no [CacheException] reaches its caller, under STRICT as under
    ALLOW, the snapshot stays as it was and the value supplier is not
    called. *)
Theorem refresh_cache_lock_timeout_is_silent {T} (g : globals T)
    (self : t T) (w : World T) :
  _refresh_lock w = true ->
  let o := _refresh_cache g self w in
  res o = Return tt
  /\ st o = w
  /\ _cached_value (st o) = _cached_value w
  /\ supplier_calls (st o) = supplier_calls w
  /\ evs o = [Log ERROR msg_lock_timeout]
  /\ (forall n, ~ In (SupplierCalled n) (evs o))
  /\ (forall e, res (get g self w) <> Raise (CacheException e))
  /\ _cached_value (st (get g self w)) = _cached_value w
  /\ supplier_calls (st (get g self w)) = supplier_calls w.
Proof.
  intros Hlock. cbn zeta. rewrite (refresh_cache_timeout g self w Hlock).
  cbn [res st evs].
  destruct (get_lock_held g self w Hlock) as [Hres [Hcv [_ Hcalls]]].
  repeat split; try reflexivity; try assumption.
  intros n [H|[]]. discriminate.
Qed.

Lemma refresh_cache_lock_timeout_is_silent_witness :
  let self := mk Scenario.failing_supplier (Some OneCallerBlocks)
                Scenario.clock_6s STRICT in
  let w := set_refresh_lock true (Scenario.with_cache Scenario.old_snapshot) in
  res (_refresh_cache Scenario.defaults self w) = Return tt
  /\ st (_refresh_cache Scenario.defaults self w) = w.
Proof.
  cbn zeta.
  pose proof (refresh_cache_lock_timeout_is_silent Scenario.defaults
    (mk Scenario.failing_supplier (Some OneCallerBlocks)
        Scenario.clock_6s STRICT)
    (set_refresh_lock true (Scenario.with_cache Scenario.old_snapshot))
    eq_refl) as H.
  cbn zeta in H. split; [exact (proj1 H) | exact (proj1 (proj2 H))].
Defined.

(** * Further properties of the cache and of its callers *)

(** ** The refresh routine leaves the coordination state alone *)

Lemma refresh_cache_frame {T} (g : globals T) (self : t T)
    (w : World T) :
  same_coordination w (st (_refresh_cache g self w)).
Proof.
  assert (Hfetched : forall w0 r',
            _refresh_lock w = false -> stale_in self w w0 ->
            _value_supplier self (supplier_calls w) = Return r' ->
            same_coordination w (st (_refresh_cache g self w))).
  { intros w0 r' Hlock Hstale Hsup.
    destruct (refresh_cache_fetched_cases g self w w0 r' Hlock Hstale Hsup)
      as [w' [Hco [_ [_ [[s [p [E _]]] | [_ [_ [_ E]]]]]]]];
      rewrite E; [exact Hco|].
    destruct (_stale_value_behavior self); exact Hco. }
  destruct (_refresh_lock w) eqn:Hlock.
  { rewrite (refresh_cache_timeout g self w Hlock). apply same_coordination_refl. }
  destruct (_cached_value w) as [r|] eqn:Hcv.
  - destruct (stale_time r) as [ts|] eqn:Hst.
    + destruct (_clock self (clock_reads w) >? ts) eqn:Hclk.
      * destruct (_value_supplier self (supplier_calls w)) as [r'|e] eqn:Hsup.
        -- apply (Hfetched (tick_clock w) r' eq_refl); [|reflexivity].
           right. exists r, ts. auto.
        -- rewrite (refresh_cache_failure g self w r ts e
                      Hlock Hcv Hst Hclk Hsup).
           destruct (_stale_value_behavior self); repeat split.
      * rewrite (refresh_cache_fresh g self w r ts Hlock Hcv Hst Hclk).
        repeat split.
    + rewrite (refresh_cache_no_stale_time g self w r Hlock Hcv Hst).
      apply same_coordination_refl.
  - destruct (_value_supplier self (supplier_calls w)) as [r'|e] eqn:Hsup.
    + apply (Hfetched w r' eq_refl); [|reflexivity].
      left. auto.
    + rewrite (refresh_cache_failure_empty g self w e Hlock Hcv Hsup).
      destruct (_stale_value_behavior self); repeat split.
Qed.

(** X1.  Whatever happens in [_refresh_cache] (timeout, fresh snapshot,
    supplier returns, supplier or jitter raises under either policy), the
    lock is
    left as it was found, so a lock that was acquired is released on every
    exit and a lock held elsewhere is not released; the strategy flags,
    the leases and the executor are not touched. *)
Theorem refresh_cache_keeps_coordination {T} (g : globals T) (self : t T)
    (w : World T) :
  same_coordination w (st (_refresh_cache g self w)).
Proof. apply refresh_cache_frame. Qed.

(** ** [get] gives back the lock and the blocking strategy's flag *)

Lemma strategy_prefetch_keeps_lock_and_flag {T} (g : globals T) (self : t T)
    (w : World T) :
  let w' := st (strategy_prefetch g self refresh_cache_method w) in
  _refresh_lock w' = _refresh_lock w
  /\ _currently_refreshing w' = _currently_refreshing w.
Proof.
  cbn zeta. unfold strategy_prefetch.
  destruct (_prefetch_strategy self) as [[|]|].
  - destruct (_currently_refreshing w) eqn:Hflag.
    + rewrite (one_caller_blocks_prefetch_busy _ _ w Hflag). cbn. auto.
    + rewrite (one_caller_blocks_prefetch_idle _ _ w Hflag).
      cbn [st invoke].
      destruct (refresh_cache_frame g self
                  (set_currently_refreshing true w)) as [Hlock _].
      cbn in *. auto.
  - unfold NonBlockingPrefetchStrategy.prefetch.
    unfold_primitives. unfold_monad. cbn.
    destruct (_concurrent_refresh_lease w); cbn; [auto|].
    destruct (_currently_prefetching w); cbn; [auto|].
    destruct (_executor_shutdown w); cbn; auto.
  - cbn. auto.
Qed.

Lemma serve_keeps_lock_and_flag {T} (g : globals T) (self : t T)
    (r : RefreshResult T) (w : World T) :
  let w' := st (serve g self r w) in
  _refresh_lock w' = _refresh_lock w
  /\ _currently_refreshing w' = _currently_refreshing w.
Proof.
  cbn zeta.
  destruct (prefetch_time r) as [tp|] eqn:Hpt.
  - destruct (_clock self (clock_reads w) >? tp) eqn:Hclk.
    + rewrite (serve_due g self w r tp Hpt Hclk). cbn [st].
      apply (strategy_prefetch_keeps_lock_and_flag g self (tick_clock w)).
    + rewrite (serve_not_due g self w r tp Hpt Hclk). cbn. auto.
  - rewrite (serve_no_prefetch_time g self w r Hpt). cbn. auto.
Qed.

Lemma after_refresh_keeps_lock_and_flag {T} (g : globals T) (self : t T)
    (w : World T) :
  let w' := st (after_refresh g self (_refresh_cache g self w)) in
  _refresh_lock w' = _refresh_lock w
  /\ _currently_refreshing w' = _currently_refreshing w.
Proof.
  cbn zeta.
  destruct (refresh_cache_frame g self w) as [Hlock [Hflag _]].
  unfold after_refresh.
  destruct (res (_refresh_cache g self w)) as [u|e]; [|cbn; auto].
  destruct (_cached_value (st (_refresh_cache g self w))) as [r|];
    [|cbn; auto].
  cbn [st].
  destruct (serve_keeps_lock_and_flag g self r
              (st (_refresh_cache g self w))) as [Hl Hf].
  split; congruence.
Qed.

(** X2.  After [get], on every exit (value returned or exception raised),
    with any strategy: the refresh lock is in the state it was in before
    the call, and so is the flag of the blocking strategy.  A caller never
    leaves the lock taken or the flag set behind. *)
Theorem get_keeps_lock_and_flag {T} (g : globals T) (self : t T)
    (w : World T) :
  _refresh_lock (st (get g self w)) = _refresh_lock w
  /\ _currently_refreshing (st (get g self w)) = _currently_refreshing w.
Proof.
  destruct (_cached_value w) as [r|] eqn:Hcv.
  - destruct (stale_time r) as [ts|] eqn:Hst.
    + destruct (_clock self (clock_reads w) >? ts) eqn:Hclk.
      * rewrite (get_stale g self w r ts Hcv Hst Hclk).
        apply (after_refresh_keeps_lock_and_flag g self (tick_clock w)).
      * rewrite (get_fresh g self w r ts Hcv Hst Hclk).
        apply (serve_keeps_lock_and_flag g self r (tick_clock w)).
    + rewrite (get_no_stale_time g self w r Hcv Hst).
      apply serve_keeps_lock_and_flag.
  - rewrite (get_empty g self w Hcv).
    apply after_refresh_keeps_lock_and_flag.
Qed.

(** ** What [get] can raise in this model *)

Lemma serve_raises {T} (g : globals T) (self : t T) (r : RefreshResult T)
    (w : World T) (e : exn) :
  res (serve g self r w) = Raise e ->
  (_prefetch_strategy self = None
   /\ e = AttributeError msg_none_has_no_prefetch)
  \/ (_stale_value_behavior self = STRICT
      /\ exists cause, e = CacheException cause).
Proof.
  destruct (prefetch_time r) as [tp|] eqn:Hpt.
  - destruct (_clock self (clock_reads w) >? tp) eqn:Hclk.
    + rewrite (serve_due g self w r tp Hpt Hclk). cbn [res].
      destruct (res (strategy_prefetch g self refresh_cache_method
                       (tick_clock w))) as [u|e'] eqn:Hres;
        [discriminate|].
      intros H. injection H as <-.
      exact (strategy_prefetch_raises g self _ _ Hres).
    + rewrite (serve_not_due g self w r tp Hpt Hclk). discriminate.
  - rewrite (serve_no_prefetch_time g self w r Hpt). discriminate.
Qed.

Lemma after_refresh_raises_only {T} (g : globals T) (self : t T)
    (w : World T) (e : exn) :
  res (after_refresh g self (_refresh_cache g self w)) = Raise e ->
  e = ConcurrentOperationException
  \/ (_prefetch_strategy self = None
      /\ e = AttributeError msg_none_has_no_prefetch)
  \/ (_stale_value_behavior self = STRICT
      /\ exists cause, e = CacheException cause).
Proof.
  unfold after_refresh.
  destruct (res (_refresh_cache g self w)) as [u|e'] eqn:Hres.
  - destruct (_cached_value (st (_refresh_cache g self w))) as [r|].
    + cbn [res]. intros H. right. exact (serve_raises g self r _ e H).
    + cbn. intros H. injection H as <-. left. reflexivity.
  - cbn. intros H. injection H as <-. right. right.
    exact (refresh_cache_raises_cache_exception g self w e' Hres).
Qed.

Lemma get_raise_cases {T} (g : globals T) (self : t T) (w : World T)
    (e : exn) :
  res (get g self w) = Raise e ->
  e = ConcurrentOperationException
  \/ (_prefetch_strategy self = None
      /\ e = AttributeError msg_none_has_no_prefetch)
  \/ (_stale_value_behavior self = STRICT
      /\ exists cause, e = CacheException cause).
Proof.
  destruct (_cached_value w) as [r|] eqn:Hcv.
  - destruct (stale_time r) as [ts|] eqn:Hst.
    + destruct (_clock self (clock_reads w) >? ts) eqn:Hclk.
      * rewrite (get_stale g self w r ts Hcv Hst Hclk).
        apply after_refresh_raises_only.
      * rewrite (get_fresh g self w r ts Hcv Hst Hclk).
        intros H. right. exact (serve_raises g self r _ e H).
    + rewrite (get_no_stale_time g self w r Hcv Hst).
      intros H. right. exact (serve_raises g self r _ e H).
  - rewrite (get_empty g self w Hcv). apply after_refresh_raises_only.
Qed.

(** ** A snapshot that is not stale is never refreshed *)

Ltac not_in_events :=
  let n := fresh "n" in
  let H := fresh "H" in
  intros n H; cbn in H;
  repeat (destruct H as [H|H]; [discriminate H|]);
  contradiction.

Lemma not_stale_from_later {T} (self : t T) (r : RefreshResult T)
    (w w' : World T) :
  not_stale_from self r w ->
  (clock_reads w <= clock_reads w')%nat ->
  not_stale_from self r w'.
Proof. intros H Hle ts n Hst Hn. apply (H ts n Hst). lia. Qed.

Lemma refresh_cache_not_stale_quiet {T} (g : globals T) (self : t T)
    (w : World T) (r : RefreshResult T) :
  _cached_value w = Some r ->
  not_stale_from self r w ->
  res (_refresh_cache g self w) = Return tt
  /\ supplier_not_called w (_refresh_cache g self w).
Proof.
  intros Hcv Hfresh. unfold supplier_not_called.
  destruct (_refresh_lock w) eqn:Hlock.
  - rewrite (refresh_cache_timeout g self w Hlock). cbn.
    repeat split; try lia; try not_in_events.
  - destruct (stale_time r) as [ts|] eqn:Hst.
    + rewrite (refresh_cache_fresh g self w r ts Hlock Hcv Hst)
        by (apply Zgtb_of_le, (Hfresh ts); [exact Hst | lia]).
      cbn. repeat split; try lia; try not_in_events.
    + rewrite (refresh_cache_no_stale_time g self w r Hlock Hcv Hst).
      cbn. repeat split; try lia; try not_in_events.
Qed.

Lemma non_blocking_prefetch_quiet {T} (value_updater : callable)
    (w : World T) :
  supplier_not_called w
    (NonBlockingPrefetchStrategy.prefetch value_updater w).
Proof.
  unfold supplier_not_called, NonBlockingPrefetchStrategy.prefetch.
  unfold_primitives. unfold_monad. cbn.
  destruct (_concurrent_refresh_lease w); cbn.
  { repeat split; try lia; try not_in_events. }
  destruct (_currently_prefetching w); cbn.
  { repeat split; try lia; try not_in_events. }
  destruct (_executor_shutdown w); cbn;
    (repeat split; try lia; try not_in_events).
Qed.

Lemma strategy_prefetch_not_stale_quiet {T} (g : globals T) (self : t T)
    (w : World T) (r : RefreshResult T) :
  _cached_value w = Some r ->
  not_stale_from self r w ->
  supplier_not_called w (strategy_prefetch g self refresh_cache_method w)
  /\ (_prefetch_strategy self <> None ->
      res (strategy_prefetch g self refresh_cache_method w) = Return tt).
Proof.
  intros Hcv Hfresh. unfold strategy_prefetch.
  destruct (_prefetch_strategy self) as [[|]|].
  - destruct (_currently_refreshing w) eqn:Hflag.
    + rewrite (one_caller_blocks_prefetch_busy _ _ w Hflag).
      unfold supplier_not_called. cbn.
      split; [|reflexivity]. repeat split; try lia; try not_in_events.
    + rewrite (one_caller_blocks_prefetch_idle _ _ w Hflag).
      destruct (refresh_cache_not_stale_quiet g self
                  (set_currently_refreshing true w) r Hcv)
        as [Hres [Hcalls [Hsame [Hclk Hevs]]]].
      { apply (not_stale_from_later self r w); [exact Hfresh | cbn; lia]. }
      unfold supplier_not_called. cbn [res st evs invoke] in *.
      split; [|intros _; exact Hres].
      repeat split; try assumption.
      intros n [H|H]; [discriminate | exact (Hevs n H)].
  - split; [apply non_blocking_prefetch_quiet|].
    intros _. apply non_blocking_prefetch_returns.
  - unfold supplier_not_called. cbn.
    split; [|congruence]. repeat split; try lia; try not_in_events.
Qed.

Lemma serve_not_stale_quiet {T} (g : globals T) (self : t T)
    (w : World T) (r : RefreshResult T) :
  _cached_value w = Some r ->
  not_stale_from self r w ->
  supplier_not_called w (serve g self r w)
  /\ (_prefetch_strategy self <> None ->
      res (serve g self r w) = Return (value r)).
Proof.
  intros Hcv Hfresh. unfold supplier_not_called.
  destruct (prefetch_time r) as [tp|] eqn:Hpt.
  - destruct (_clock self (clock_reads w) >? tp) eqn:Hclk.
    + rewrite (serve_due g self w r tp Hpt Hclk). cbn [res st evs].
      destruct (strategy_prefetch_not_stale_quiet g self (tick_clock w) r Hcv)
        as [[Hcalls [Hsame [Hreads Hevs]]] Hres].
      { apply (not_stale_from_later self r w); [exact Hfresh | cbn; lia]. }
      cbn in Hcalls, Hsame, Hreads.
      split.
      * repeat split; try assumption. lia.
      * intros Hsome. rewrite (Hres Hsome). reflexivity.
    + rewrite (serve_not_due g self w r tp Hpt Hclk). cbn.
      split; [|reflexivity]. repeat split; try lia; try not_in_events.
  - rewrite (serve_no_prefetch_time g self w r Hpt). cbn.
    split; [|reflexivity]. repeat split; try lia; try not_in_events.
Qed.

(** X4.  [get] on a cached snapshot that is not stale never calls the value
    supplier, whatever the prefetch time of the snapshot and whatever the
    strategy: the snapshot is still the cached one afterwards, and with a
    strategy set [get] returns its value.  A prefetch time that has passed
    makes [get] run the refresh routine through the strategy, and that
    routine leaves at its staleness test. *)
Theorem get_not_stale_never_calls_supplier {T} (g : globals T) (self : t T)
    (w : World T) (r : RefreshResult T) :
  _cached_value w = Some r ->
  not_stale_from self r w ->
  let o := get g self w in
  supplier_calls (st o) = supplier_calls w
  /\ _cached_value (st o) = Some r
  /\ (forall n, ~ In (SupplierCalled n) (evs o))
  /\ (_prefetch_strategy self <> None -> res o = Return (value r)).
Proof.
  intros Hcv Hfresh. cbn zeta.
  destruct (stale_time r) as [ts|] eqn:Hst.
  - rewrite (get_fresh g self w r ts Hcv Hst)
      by (apply Zgtb_of_le, (Hfresh ts); [exact Hst | lia]).
    destruct (serve_not_stale_quiet g self (tick_clock w) r Hcv)
      as [[Hcalls [Hsame [_ Hevs]]] Hres].
    { apply (not_stale_from_later self r w); [exact Hfresh | cbn; lia]. }
    cbn in Hcalls, Hsame. repeat split; try assumption. congruence.
  - rewrite (get_no_stale_time g self w r Hcv Hst).
    destruct (serve_not_stale_quiet g self w r Hcv Hfresh)
      as [[Hcalls [Hsame [_ Hevs]]] Hres].
    repeat split; try assumption. congruence.
Qed.

Lemma get_not_stale_never_calls_supplier_witness :
  supplier_calls
    (st (get Scenario.no_jitter Scenario.blocking_supplier
           Scenario.world_at_t0))
  = supplier_calls Scenario.world_at_t0.
Proof.
  refine (proj1 (get_not_stale_never_calls_supplier Scenario.no_jitter
                   Scenario.blocking_supplier Scenario.world_at_t0
                   Scenario.v1_snapshot eq_refl _)).
  intros ts n Hts Hn. injection Hts as <-.
  destruct n as [|n]; [inversion Hn | discriminate].
Defined.

(** ** A successful refresh installs the new value with jittered times *)

(** X5.  [_handle_fetched_success] with [random.random()] in [[0, 1)].
    When the jitter transform fits the range of [datetime] at both times
    of the fetched result, the call returns; when it returns, the cached
    snapshot is replaced by one that carries the fetched value unchanged,
    a time that the value supplier left unset stays unset, and each time
    it set is stored after the jitter transform: as it is when
    [JITTER_RANGE <= 0], otherwise between [time + JITTER_START] and
    [time + JITTER_START + JITTER_RANGE].  The only exception it raises is
    the [OverflowError] of the jitter transform, and then the cached
    snapshot is left as it was.  Lock, flags, leases and the executor are
    not touched. *)
Theorem handle_fetched_success_installs_jittered {T} (g : globals T)
    (w : World T) (refreshed_value : RefreshResult T) :
  random_in_unit_interval g ->
  let o := _handle_fetched_success g refreshed_value w in
  same_coordination w (st o)
  /\ (jitter_fits g (stale_time refreshed_value) ->
      jitter_fits g (prefetch_time refreshed_value) ->
      res o = Return tt)
  /\ (res o = Return tt ->
      exists s p,
        _cached_value (st o)
        = Some (mkRefreshResult (value refreshed_value) s p)
        /\ jittered_optional g (stale_time refreshed_value) s
        /\ jittered_optional g (prefetch_time refreshed_value) p)
  /\ (forall e, res o = Raise e ->
      e = OverflowError /\ _cached_value (st o) = _cached_value w).
Proof.
  intros Hrand. cbn zeta.
  destruct (handle_fetched_success_cases g w refreshed_value)
    as [w' [Hco [_ [_ [[s [p [E [Hcv [_ [_ Hj]]]]]] | [E [Hcv [_ Hno]]]]]]]];
    rewrite E; cbn [res st]; (split; [exact Hco|]).
  - split; [reflexivity|]. split; [|discriminate].
    intros _. exists s, p. split; [exact Hcv | exact (Hj Hrand)].
  - split; [|split].
    + intros Hs Hp. exfalso. apply Hno. auto.
    + discriminate.
    + intros e H. injection H as <-. split; [reflexivity | exact Hcv].
Qed.

Lemma handle_fetched_success_installs_jittered_witness :
  (res (_handle_fetched_success Scenario.defaults
          (mkRefreshResult "v1"%string (Some (seconds 10)) None)
          Scenario.fresh_world) = Return tt
   /\ _cached_value
        (st (_handle_fetched_success Scenario.defaults
               (mkRefreshResult "v1"%string (Some (seconds 10)) None)
               Scenario.fresh_world))
      = Some (mkRefreshResult "v1"%string
                (Some (seconds 10 + minutes 5 + seconds 150)) None))
  /\ _cached_value
       (st (_handle_fetched_success Scenario.defaults
              (mkRefreshResult "v1"%string (Some datetime_max) None)
              Scenario.fresh_world))
     = None.
Proof.
  assert (Hrand : random_in_unit_interval Scenario.defaults)
    by (intros n; split; [discriminate | reflexivity]).
  split; [split|].
  - refine (proj1 (proj2 (handle_fetched_success_installs_jittered
                            Scenario.defaults Scenario.fresh_world
                            (mkRefreshResult "v1"%string (Some (seconds 10))
                               None) Hrand)) _ _).
    + intros _. split; discriminate.
    + exact I.
  - vm_compute. reflexivity.
  - refine (proj2 (proj2 (proj2 (proj2
              (handle_fetched_success_installs_jittered
                 Scenario.defaults Scenario.fresh_world
                 (mkRefreshResult "v1"%string (Some datetime_max) None)
                 Hrand))) OverflowError _)).
    reflexivity.
Defined.

(** ** A successful refresh on the stale path is what [get] returns *)

Lemma refresh_cache_success_spec {T} (g : globals T) (self : t T)
    (w w0 : World T) (r' : RefreshResult T) :
  _refresh_lock w = false ->
  stale_in self w w0 ->
  _value_supplier self (supplier_calls w) = Return r' ->
  random_in_unit_interval g ->
  jitter_fits g (stale_time r') ->
  jitter_fits g (prefetch_time r') ->
  exists w' s p,
    _refresh_cache g self w
    = mkOutcome (Return tt) w' [SupplierCalled (supplier_calls w)]
    /\ _cached_value w' = Some (mkRefreshResult (value r') s p)
    /\ supplier_calls w' = S (supplier_calls w)
    /\ (prefetch_time r' = None -> p = None).
Proof.
  intros Hlock Hstale Hsup Hrand Hs Hp.
  destruct (refresh_cache_fetched_cases g self w w0 r' Hlock Hstale Hsup)
    as [w' [_ [Hsc [_ [[s [p [E [Hcv [_ [Hnone _]]]]]] | [_ [_ [Hno _]]]]]]]].
  - exists w', s, p. auto.
  - exfalso. apply Hno. auto.
Qed.

Lemma serve_returns_its_snapshot {T} (g : globals T) (self : t T)
    (r : RefreshResult T) (w : World T) (v : T) :
  res (serve g self r w) = Return v -> v = value r.
Proof.
  destruct (prefetch_time r) as [tp|] eqn:Hpt.
  - destruct (_clock self (clock_reads w) >? tp) eqn:Hclk.
    + rewrite (serve_due g self w r tp Hpt Hclk). cbn [res].
      destruct (res (strategy_prefetch g self refresh_cache_method
                       (tick_clock w))); [|discriminate].
      intros H. injection H as <-. reflexivity.
    + rewrite (serve_not_due g self w r tp Hpt Hclk). cbn.
      intros H. injection H as <-. reflexivity.
  - rewrite (serve_no_prefetch_time g self w r Hpt). cbn.
    intros H. injection H as <-. reflexivity.
Qed.

Lemma after_successful_refresh {T} (g : globals T) (self : t T)
    (w w0 : World T) (r' : RefreshResult T) :
  _refresh_lock w = false ->
  stale_in self w w0 ->
  _value_supplier self (supplier_calls w) = Return r' ->
  random_in_unit_interval g ->
  jitter_fits g (stale_time r') ->
  jitter_fits g (prefetch_time r') ->
  let o := after_refresh g self (_refresh_cache g self w) in
  (forall v, res o = Return v -> v = value r')
  /\ (exists rest, evs o = SupplierCalled (supplier_calls w) :: rest)
  /\ (prefetch_time r' = None ->
      res o = Return (value r')
      /\ supplier_calls (st o) = S (supplier_calls w)
      /\ evs o = [SupplierCalled (supplier_calls w)]).
Proof.
  intros Hlock Hstale Hsup Hrand Hs Hp. cbn zeta.
  destruct (refresh_cache_success_spec g self w w0 r'
              Hlock Hstale Hsup Hrand Hs Hp)
    as [w' [s [p [Heq [Hcv [Hsc Hnone]]]]]].
  rewrite Heq. unfold after_refresh. cbn [res st evs]. rewrite Hcv.
  cbn [res st evs]. split; [|split].
  - intros v H. apply serve_returns_its_snapshot in H. exact H.
  - eexists. cbn. reflexivity.
  - intros Hpt.
    rewrite (serve_no_prefetch_time g self w' _) by (cbn; auto).
    cbn. repeat split. exact Hsc.
Qed.

(** X6.  Nothing cached or a stale snapshot, the lock free, the value
    supplier returns [r'], and the jitter transform (with
    [random.random()] in [[0, 1)]) fits the range of [datetime] at the
    times of [r']: the first thing [get] does is call the value supplier,
    and if [get] returns a value it is the new one, never the stale one.
    When [r'] has no prefetch time, [get] does return the value of [r']
    and the value supplier was called exactly once. *)
Theorem get_after_successful_refresh_returns_new_value {T} (g : globals T)
    (self : t T) (w : World T) (r' : RefreshResult T) :
  _refresh_lock w = false ->
  needs_refresh self w ->
  _value_supplier self (supplier_calls w) = Return r' ->
  random_in_unit_interval g ->
  jitter_fits g (stale_time r') ->
  jitter_fits g (prefetch_time r') ->
  let o := get g self w in
  (forall v, res o = Return v -> v = value r')
  /\ (exists rest, evs o = SupplierCalled (supplier_calls w) :: rest)
  /\ (prefetch_time r' = None ->
      res o = Return (value r')
      /\ supplier_calls (st o) = S (supplier_calls w)
      /\ evs o = [SupplierCalled (supplier_calls w)]).
Proof.
  intros Hlock [Hcv | [r [ts [Hcv [Hst Hclk]]]]] Hsup Hrand Hs Hp.
  - rewrite (get_empty g self w Hcv).
    apply (after_successful_refresh g self w w r' Hlock); try assumption.
    left. auto.
  - rewrite (get_stale g self w r ts Hcv Hst)
      by (apply Zgtb_of_gt, Hclk; lia).
    apply (after_successful_refresh g self (tick_clock w)
             (tick_clock (tick_clock w)) r' Hlock); try assumption.
    right. exists r, ts. split; [exact Hcv|]. split; [exact Hst|].
    split; [|reflexivity].
    apply Zgtb_of_gt, Hclk. cbn. lia.
Qed.

Lemma get_after_successful_refresh_returns_new_value_witness :
  res (get Scenario.defaults
         (mk Scenario.v1_then_v2 (Some OneCallerBlocks) Scenario.clock_6s
             ALLOW)
         (Scenario.with_cache Scenario.old_snapshot))
  <> Return "old_value"%string.
Proof.
  intros H.
  assert (Hstale : needs_refresh
                     (mk Scenario.v1_then_v2 (Some OneCallerBlocks)
                         Scenario.clock_6s ALLOW)
                     (Scenario.with_cache Scenario.old_snapshot)).
  { right. exists Scenario.old_snapshot, (seconds 1).
    split; [reflexivity|]. split; [reflexivity|].
    intros n _. reflexivity. }
  assert (Hrand : random_in_unit_interval Scenario.defaults)
    by (intros n; split; [discriminate | reflexivity]).
  assert (Hs : jitter_fits Scenario.defaults (Some (seconds 10)))
    by (intros _; split; discriminate).
  assert (Hp : jitter_fits Scenario.defaults (Some (seconds 5)))
    by (intros _; split; discriminate).
  pose proof (proj1 (get_after_successful_refresh_returns_new_value
                       Scenario.defaults
                       (mk Scenario.v1_then_v2 (Some OneCallerBlocks)
                           Scenario.clock_6s ALLOW)
                       (Scenario.with_cache Scenario.old_snapshot)
                       (mkRefreshResult "v1"%string
                          (Some (seconds 10)) (Some (seconds 5)))
                       eq_refl Hstale eq_refl Hrand Hs Hp)
                    "old_value"%string H) as Habs.
  discriminate Habs.
Defined.

(** ** The non-blocking strategy: leases, the queue and the worker *)

Lemma non_blocking_prefetch_idle {T} (value_updater : callable)
    (w : World T) :
  _concurrent_refresh_lease w <> O ->
  _currently_prefetching w = false ->
  _executor_shutdown w = false ->
  NonBlockingPrefetchStrategy.prefetch value_updater w
  = mkOutcome (Return tt)
      (set_executor_queue (_executor_queue w ++ [value_updater])
         (set_currently_prefetching true
            (set_concurrent_refresh_lease
               (pred (_concurrent_refresh_lease w)) w)))
      [LeaseAcquired; Submitted value_updater].
Proof.
  intros Hlease Hflag Hdown.
  unfold NonBlockingPrefetchStrategy.prefetch.
  unfold_primitives. unfold_monad.
  destruct w as [cv lk fr fp lease q sd cr sc rd]. cbn in *. subst.
  destruct lease as [|n]; [congruence|]. reflexivity.
Qed.

Lemma non_blocking_prefetch_busy {T} (value_updater : callable)
    (w : World T) :
  _concurrent_refresh_lease w <> O ->
  _currently_prefetching w = true ->
  NonBlockingPrefetchStrategy.prefetch value_updater w
  = mkOutcome (Return tt) w [LeaseAcquired; LeaseReleased].
Proof.
  intros Hlease Hflag.
  unfold NonBlockingPrefetchStrategy.prefetch.
  unfold_primitives. unfold_monad.
  destruct w as [cv lk fr fp lease q sd cr sc rd]. cbn in *. subst.
  destruct lease as [|n]; [congruence|]. reflexivity.
Qed.

(** X7.  [NonBlockingPrefetchStrategy.prefetch] when the executor refuses
    the work item (it was shut down): the call returns normally, the lease
    it took is given back, the instance flag is clear again, nothing is
    queued; the world is exactly as before the call. *)
Theorem non_blocking_prefetch_after_shutdown {T} (value_updater : callable)
    (w : World T) :
  _concurrent_refresh_lease w <> O ->
  _currently_prefetching w = false ->
  _executor_shutdown w = true ->
  NonBlockingPrefetchStrategy.prefetch value_updater w
  = mkOutcome (Return tt) w [LeaseAcquired; LeaseReleased].
Proof.
  intros Hlease Hflag Hdown.
  unfold NonBlockingPrefetchStrategy.prefetch.
  unfold_primitives. unfold_monad.
  destruct w as [cv lk fr fp lease q sd cr sc rd]. cbn in *. subst.
  destruct lease as [|n]; [congruence|]. reflexivity.
Qed.

Lemma non_blocking_prefetch_after_shutdown_witness :
  NonBlockingPrefetchStrategy.prefetch (user_function 0)
    (set_executor_shutdown true Scenario.fresh_world)
  = mkOutcome (Return tt) (set_executor_shutdown true Scenario.fresh_world)
      [LeaseAcquired; LeaseReleased].
Proof.
  apply (non_blocking_prefetch_after_shutdown (user_function 0)
           (set_executor_shutdown true Scenario.fresh_world));
    [discriminate | reflexivity | reflexivity].
Defined.




Lemma non_blocking_prefetch_flag_set {T} (value_updater : callable)
    (w : World T) :
  _currently_prefetching w = true ->
  res (NonBlockingPrefetchStrategy.prefetch value_updater w) = Return tt
  /\ st (NonBlockingPrefetchStrategy.prefetch value_updater w) = w
  /\ forall c, ~ In (Submitted c)
                 (evs (NonBlockingPrefetchStrategy.prefetch value_updater w)).
Proof.
  intros Hflag.
  unfold NonBlockingPrefetchStrategy.prefetch.
  unfold_primitives. unfold_monad.
  destruct w as [cv lk fr fp lease q sd cr sc rd]. cbn in *. subst.
  destruct lease as [|n]; cbn; repeat split; not_in_events.
Qed.

Lemma get_non_blocking_due {T} (g : globals T) (self : t T) (w : World T)
    (r : RefreshResult T) (tp : datetime) :
  _prefetch_strategy self = Some NonBlocking ->
  _cached_value w = Some r ->
  not_stale_from self r w ->
  prefetch_time r = Some tp ->
  (forall n, (clock_reads w <= n)%nat -> _clock self n > tp) ->
  exists n,
    (clock_reads w <= n)%nat
    /\ get g self w
       = mkOutcome (Return (value r))
           (st (NonBlockingPrefetchStrategy.prefetch refresh_cache_method
                  (set_clock_reads n w)))
           (evs (NonBlockingPrefetchStrategy.prefetch refresh_cache_method
                   (set_clock_reads n w))).
Proof.
  intros Hnb Hcv Hfresh Hpt Hdue.
  destruct (stale_time r) as [ts|] eqn:Hst.
  - exists (S (S (clock_reads w))). split; [lia|].
    rewrite (get_fresh g self w r ts Hcv Hst)
      by (apply Zgtb_of_le, (Hfresh ts); [exact Hst | lia]).
    rewrite (serve_due g self (tick_clock w) r tp Hpt)
      by (apply Zgtb_of_gt, Hdue; cbn; lia).
    unfold strategy_prefetch. rewrite Hnb.
    rewrite non_blocking_prefetch_returns.
    destruct w; reflexivity.
  - exists (S (clock_reads w)). split; [lia|].
    rewrite (get_no_stale_time g self w r Hcv Hst).
    rewrite (serve_due g self w r tp Hpt)
      by (apply Zgtb_of_gt, Hdue; lia).
    unfold strategy_prefetch. rewrite Hnb.
    rewrite non_blocking_prefetch_returns.
    destruct w; reflexivity.
Qed.

(** X9.  [get] with the non-blocking strategy on a snapshot that is not
    stale and whose prefetch time has passed, the instance idle, a lease
    available and the executor running: [get] returns the cached value at
    once and queues exactly one refresh.  A second [get], made before the
    worker has run that item, returns the same value and queues nothing
    more; the lease count stays where the first call left it. *)
Theorem non_blocking_get_queues_one_refresh {T} (g : globals T)
    (self : t T) (w : World T) (r : RefreshResult T) (tp : datetime) :
  _prefetch_strategy self = Some NonBlocking ->
  _cached_value w = Some r ->
  not_stale_from self r w ->
  prefetch_time r = Some tp ->
  (forall n, (clock_reads w <= n)%nat -> _clock self n > tp) ->
  _concurrent_refresh_lease w <> O ->
  _currently_prefetching w = false ->
  _executor_shutdown w = false ->
  let o1 := get g self w in
  let o2 := get g self (st o1) in
  res o1 = Return (value r)
  /\ _executor_queue (st o1) = _executor_queue w ++ [refresh_cache_method]
  /\ S (_concurrent_refresh_lease (st o1)) = _concurrent_refresh_lease w
  /\ res o2 = Return (value r)
  /\ _executor_queue (st o2) = _executor_queue (st o1)
  /\ _concurrent_refresh_lease (st o2) = _concurrent_refresh_lease (st o1)
  /\ (forall c, ~ In (Submitted c) (evs o2)).
Proof.
  intros Hnb Hcv Hfresh Hpt Hdue Hlease Hflag Hdown. cbn zeta.
  destruct (get_non_blocking_due g self w r tp Hnb Hcv Hfresh Hpt Hdue)
    as [n [Hn Hget1]].
  rewrite Hget1.
  rewrite (non_blocking_prefetch_idle refresh_cache_method
             (set_clock_reads n w) Hlease Hflag Hdown).
  cbn [res st evs].
  set (w1 := set_executor_queue _ _).
  assert (Hcv1 : _cached_value w1 = Some r) by exact Hcv.
  assert (Hfresh1 : not_stale_from self r w1).
  { apply (not_stale_from_later self r w); [exact Hfresh | exact Hn]. }
  assert (Hdue1 : forall m, (clock_reads w1 <= m)%nat -> _clock self m > tp).
  { intros m Hm. apply Hdue. cbn in Hm. lia. }
  destruct (get_non_blocking_due g self w1 r tp Hnb Hcv1 Hfresh1 Hpt Hdue1)
    as [n' [_ Hget2]].
  rewrite Hget2. cbn [res st evs].
  destruct (non_blocking_prefetch_flag_set refresh_cache_method
              (set_clock_reads n' w1) eq_refl) as [_ [Hst Hevs]].
  rewrite Hst.
  split; [reflexivity|]. split; [reflexivity|].
  split.
  { cbn. destruct (_concurrent_refresh_lease w); [congruence | reflexivity]. }
  split; [reflexivity|]. split; [reflexivity|]. split; [reflexivity|].
  exact Hevs.
Qed.

Lemma non_blocking_get_queues_one_refresh_witness :
  let self := mk Scenario.v1_then_v2 (Some NonBlocking)
                Scenario.clock_6s ALLOW in
  let w := Scenario.with_cache Scenario.v1_snapshot in
  _executor_queue (st (get Scenario.no_jitter self w))
  = [refresh_cache_method]
  /\ _executor_queue
       (st (get Scenario.no_jitter self (st (get Scenario.no_jitter self w))))
     = [refresh_cache_method].
Proof.
  cbn zeta.
  assert (Hfresh : not_stale_from
                     (mk Scenario.v1_then_v2 (Some NonBlocking)
                         Scenario.clock_6s ALLOW)
                     Scenario.v1_snapshot
                     (Scenario.with_cache Scenario.v1_snapshot)).
  { intros ts n Hts _. injection Hts as <-. discriminate. }
  assert (Hdue : forall n : nat,
            (clock_reads (Scenario.with_cache Scenario.v1_snapshot) <= n)%nat ->
            Scenario.clock_6s n > seconds 5)
    by (intros n _; reflexivity).
  assert (Hlease : _concurrent_refresh_lease
                     (Scenario.with_cache Scenario.v1_snapshot) <> O)
    by discriminate.
  pose proof (non_blocking_get_queues_one_refresh Scenario.no_jitter
                (mk Scenario.v1_then_v2 (Some NonBlocking)
                    Scenario.clock_6s ALLOW)
                (Scenario.with_cache Scenario.v1_snapshot)
                Scenario.v1_snapshot (seconds 5)
                eq_refl eq_refl Hfresh eq_refl Hdue Hlease eq_refl eq_refl)
    as [_ [Hq1 [_ [_ [Hq2 _]]]]].
  split; [exact Hq1|]. rewrite Hq2. exact Hq1.
Defined.

(** ** The credential providers built on the cache *)

(** X10.  [AbstractRefreshedCredentialProvider.__init__] always gives the
    cache a prefetch strategy: the non-blocking one when asynchronous
    update is enabled, the blocking one otherwise, on a new instance whose
    flag is clear; the policy is the one passed (STRICT when left out),
    the clock is the wall clock, and nothing is cached yet.  So
    [get_credential] of a provider never raises [AttributeError], under
    ALLOW it can only raise [ConcurrentOperationException], and [close]
    returns normally. *)
Theorem provider_cache_always_has_a_strategy {T} (g : globals T)
    (refresh_credential : nat -> result (RefreshResult T))
    (async_credential_update_enabled : bool)
    (stale_value_behavior : StaleValueBehavior) (w0 : World T) :
  let o := AbstractRefreshedCredentialProvider.__init__ g refresh_credential
             async_credential_update_enabled stale_value_behavior w0 in
  exists provider,
    res o = Return provider
    /\ AbstractRefreshedCredentialProvider._cached_result_supplier provider
       = mk refresh_credential
           (Some (if async_credential_update_enabled
                  then NonBlocking else OneCallerBlocks))
           (_get_current_time g) stale_value_behavior
    /\ res (AbstractRefreshedCredentialProvider.construct g
              refresh_credential w0)
       = Return (AbstractRefreshedCredentialProvider.mk false STRICT
                   (mk refresh_credential (Some OneCallerBlocks)
                       (_get_current_time g) STRICT))
    /\ _cached_value (st o) = None
    /\ _refresh_lock (st o) = false
    /\ (if async_credential_update_enabled
        then _currently_prefetching (st o)
        else _currently_refreshing (st o)) = false
    /\ (forall w msg,
          res (AbstractRefreshedCredentialProvider.get_credential g provider w)
          <> Raise (AttributeError msg))
    /\ (stale_value_behavior = ALLOW ->
        forall w e,
          res (AbstractRefreshedCredentialProvider.get_credential g provider w)
          = Raise e ->
          e = ConcurrentOperationException)
    /\ (forall w,
          res (AbstractRefreshedCredentialProvider.close provider w)
          = Return tt).
Proof.
  cbn zeta.
  exists (AbstractRefreshedCredentialProvider.mk
            async_credential_update_enabled stale_value_behavior
            (mk refresh_credential
                (Some (if async_credential_update_enabled
                       then NonBlocking else OneCallerBlocks))
                (_get_current_time g) stale_value_behavior)).
  split; [destruct async_credential_update_enabled; reflexivity|].
  split; [reflexivity|]. split; [reflexivity|].
  split; [destruct async_credential_update_enabled; reflexivity|].
  split; [destruct async_credential_update_enabled; reflexivity|].
  split; [destruct async_credential_update_enabled; reflexivity|].
  unfold AbstractRefreshedCredentialProvider.get_credential,
    AbstractRefreshedCredentialProvider.get_cached_result_supplier,
    AbstractRefreshedCredentialProvider.close.
  cbn [AbstractRefreshedCredentialProvider._cached_result_supplier
         _prefetch_strategy].
  split; [|split].
  - intros w msg H.
    destruct (get_raise_cases g _ w _ H)
      as [Habs | [[Habs _] | [_ [cause Habs]]]];
      discriminate Habs.
  - intros Hallow w e H.
    destruct (get_raise_cases g _ w _ H)
      as [Hcoe | [[Habs _] | [Habs _]]].
    + exact Hcoe.
    + cbn in Habs. destruct async_credential_update_enabled; discriminate.
    + cbn in Habs. congruence.
  - intros w. destruct async_credential_update_enabled; reflexivity.
Qed.

Lemma provider_cache_always_has_a_strategy_witness :
  exists provider,
    res (AbstractRefreshedCredentialProvider.__init__ Scenario.defaults
           Scenario.failing_supplier true ALLOW Scenario.fresh_world)
    = Return provider
    /\ res (AbstractRefreshedCredentialProvider.get_credential
              Scenario.defaults provider Scenario.fresh_world)
       = Raise ConcurrentOperationException.
Proof.
  destruct (provider_cache_always_has_a_strategy Scenario.defaults
              Scenario.failing_supplier true ALLOW Scenario.fresh_world)
    as [provider [Hres [Hsupplier _]]].
  exists provider. split; [exact Hres|].
  unfold AbstractRefreshedCredentialProvider.get_credential,
    AbstractRefreshedCredentialProvider.get_cached_result_supplier.
  rewrite Hsupplier. reflexivity.
Defined.

Lemma fromtimestamp_in_range (timestamp : Z) :
  IDaaSMachineCredentialProvider.timestamp_min <= timestamp
  <= IDaaSMachineCredentialProvider.timestamp_max ->
  IDaaSMachineCredentialProvider.fromtimestamp timestamp
  = Return (seconds timestamp).
Proof.
  intros H. unfold IDaaSMachineCredentialProvider.fromtimestamp.
  apply in_range_true in H. rewrite H. reflexivity.
Qed.

Lemma fromtimestamp_out_of_range (timestamp : Z) :
  timestamp < IDaaSMachineCredentialProvider.timestamp_min
  \/ IDaaSMachineCredentialProvider.timestamp_max < timestamp ->
  exists e,
    IDaaSMachineCredentialProvider.fromtimestamp timestamp = Raise e
    /\ (IDaaSMachineCredentialProvider.gmtime_min <= timestamp
        <= IDaaSMachineCredentialProvider.gmtime_max -> e = ValueError).
Proof.
  intros H. unfold IDaaSMachineCredentialProvider.fromtimestamp.
  apply in_range_false in H. rewrite H.
  destruct (in_range IDaaSMachineCredentialProvider.gmtime_min
              IDaaSMachineCredentialProvider.gmtime_max timestamp) eqn:Hg.
  - eexists. split; [reflexivity | reflexivity].
  - apply in_range_false in Hg.
    destruct (in_range IDaaSMachineCredentialProvider.time_t_min
                IDaaSMachineCredentialProvider.time_t_max timestamp);
      eexists; (split; [reflexivity | intros Habs; exfalso; lia]).
Qed.

(** What [_refresh_credential] gives for a token, when every step stays
    in range. *)
Lemma refresh_credential_in_range
    (token : IDaaSMachineCredentialProvider.IDaaSTokenResponse) :
  0 <= IDaaSMachineCredentialProvider.expires_in token ->
  IDaaSMachineCredentialProvider.timestamp_min
  <= IDaaSMachineCredentialProvider.expires_at token
     - IDaaSMachineCredentialProvider.expires_in token / 3 ->
  IDaaSMachineCredentialProvider.expires_at token
  <= IDaaSMachineCredentialProvider.timestamp_max ->
  IDaaSMachineCredentialProvider._refresh_credential (Return token)
  = Return (mkRefreshResult token
              (Some (seconds (IDaaSMachineCredentialProvider.expires_at token
                              - IDaaSMachineCredentialProvider.expires_in token
                                / 5)))
              (Some (seconds (IDaaSMachineCredentialProvider.expires_at token
                              - IDaaSMachineCredentialProvider.expires_in token
                                / 3)))).
Proof.
  intros Hlife Hmin Hmax.
  assert (H5 : 0 <= IDaaSMachineCredentialProvider.expires_in token / 5)
    by (apply Z.div_pos; lia).
  assert (H35 : IDaaSMachineCredentialProvider.expires_in token / 5
                <= IDaaSMachineCredentialProvider.expires_in token / 3)
    by (apply Z.div_le_compat_l; lia).
  unfold IDaaSMachineCredentialProvider._refresh_credential.
  cbn [and_then].
  unfold IDaaSMachineCredentialProvider.timestamp_min,
    IDaaSMachineCredentialProvider.timestamp_max in *.
  rewrite fromtimestamp_in_range
    by (unfold IDaaSMachineCredentialProvider.timestamp_min,
          IDaaSMachineCredentialProvider.timestamp_max; lia).
  cbn [and_then]. unfold timedelta_of_int_seconds.
  destruct (new_timedelta_cases
              (seconds (IDaaSMachineCredentialProvider.expires_in token / 5)))
    as [[_ E5]|[Habs _]];
    [rewrite E5
    |unfold seconds, microseconds_per_second, timedelta_min, timedelta_max
       in Habs; lia].
  cbn [and_then].
  destruct (datetime_sub_cases
              (seconds (IDaaSMachineCredentialProvider.expires_at token))
              (seconds (IDaaSMachineCredentialProvider.expires_in token / 5)))
    as [[_ S5]|[Habs _]];
    [rewrite S5
    |unfold seconds, microseconds_per_second, datetime_min, datetime_max
       in Habs; lia].
  cbn [and_then].
  destruct (new_timedelta_cases
              (seconds (IDaaSMachineCredentialProvider.expires_in token / 3)))
    as [[_ E3]|[Habs _]];
    [rewrite E3
    |unfold seconds, microseconds_per_second, timedelta_min, timedelta_max
       in Habs; lia].
  cbn [and_then].
  destruct (datetime_sub_cases
              (seconds (IDaaSMachineCredentialProvider.expires_at token))
              (seconds (IDaaSMachineCredentialProvider.expires_in token / 3)))
    as [[_ S3]|[Habs _]];
    [rewrite S3
    |unfold seconds, microseconds_per_second, datetime_min, datetime_max
       in Habs; lia].
  cbn [and_then].
  assert (Hsub : forall a b, seconds a - seconds b = seconds (a - b))
    by (intros a b; unfold seconds; lia).
  rewrite !Hsub. reflexivity.
Qed.

Lemma refresh_credential_out_of_range
    (token : IDaaSMachineCredentialProvider.IDaaSTokenResponse) :
  IDaaSMachineCredentialProvider.expires_at token
  < IDaaSMachineCredentialProvider.timestamp_min
  \/ IDaaSMachineCredentialProvider.timestamp_max
     < IDaaSMachineCredentialProvider.expires_at token ->
  exists e,
    IDaaSMachineCredentialProvider._refresh_credential (Return token)
    = Raise e
    /\ (IDaaSMachineCredentialProvider.gmtime_min
        <= IDaaSMachineCredentialProvider.expires_at token
        <= IDaaSMachineCredentialProvider.gmtime_max -> e = ValueError).
Proof.
  intros Hout.
  destruct (fromtimestamp_out_of_range _ Hout) as [e [E He]].
  exists e. split; [|exact He].
  unfold IDaaSMachineCredentialProvider._refresh_credential.
  cbn [and_then]. rewrite E. reflexivity.
Qed.

(** What is known when [_refresh_credential] returns. *)
Lemma refresh_credential_returns
    (token : IDaaSMachineCredentialProvider.IDaaSTokenResponse)
    (r : RefreshResult IDaaSMachineCredentialProvider.IDaaSTokenResponse) :
  IDaaSMachineCredentialProvider._refresh_credential (Return token)
  = Return r ->
  let stale :=
    seconds (IDaaSMachineCredentialProvider.expires_at token)
    - seconds (IDaaSMachineCredentialProvider.expires_in token / 5) in
  let prefetch :=
    seconds (IDaaSMachineCredentialProvider.expires_at token)
    - seconds (IDaaSMachineCredentialProvider.expires_in token / 3) in
  IDaaSMachineCredentialProvider.timestamp_min
  <= IDaaSMachineCredentialProvider.expires_at token
  <= IDaaSMachineCredentialProvider.timestamp_max
  /\ r = mkRefreshResult token (Some stale) (Some prefetch)
  /\ datetime_min <= stale <= datetime_max
  /\ datetime_min <= prefetch <= datetime_max.
Proof.
  intros Hr. cbn zeta.
  unfold IDaaSMachineCredentialProvider._refresh_credential in Hr.
  cbn [and_then] in Hr.
  destruct (Z_lt_le_dec (IDaaSMachineCredentialProvider.expires_at token)
              IDaaSMachineCredentialProvider.timestamp_min) as [Hlo|Hlo].
  { destruct (fromtimestamp_out_of_range _ (or_introl Hlo)) as [e [E _]].
    rewrite E in Hr. discriminate Hr. }
  destruct (Z_lt_le_dec IDaaSMachineCredentialProvider.timestamp_max
              (IDaaSMachineCredentialProvider.expires_at token)) as [Hhi|Hhi].
  { destruct (fromtimestamp_out_of_range _ (or_intror Hhi)) as [e [E _]].
    rewrite E in Hr. discriminate Hr. }
  rewrite fromtimestamp_in_range in Hr by lia.
  cbn [and_then] in Hr. unfold timedelta_of_int_seconds in Hr.
  destruct (new_timedelta_cases
              (seconds (IDaaSMachineCredentialProvider.expires_in token / 5)))
    as [[_ E5]|[_ E5]]; rewrite E5 in Hr; [|discriminate Hr].
  cbn [and_then] in Hr.
  destruct (datetime_sub_cases
              (seconds (IDaaSMachineCredentialProvider.expires_at token))
              (seconds (IDaaSMachineCredentialProvider.expires_in token / 5)))
    as [[H5 S5]|[_ S5]]; rewrite S5 in Hr; [|discriminate Hr].
  cbn [and_then] in Hr.
  destruct (new_timedelta_cases
              (seconds (IDaaSMachineCredentialProvider.expires_in token / 3)))
    as [[_ E3]|[_ E3]]; rewrite E3 in Hr; [|discriminate Hr].
  cbn [and_then] in Hr.
  destruct (datetime_sub_cases
              (seconds (IDaaSMachineCredentialProvider.expires_at token))
              (seconds (IDaaSMachineCredentialProvider.expires_in token / 3)))
    as [[H3 S3]|[_ S3]]; rewrite S3 in Hr; [|discriminate Hr].
  cbn [and_then] in Hr. injection Hr as <-.
  split; [lia|]. split; [reflexivity|]. split; assumption.
Qed.

(** X11.  The timing that [IDaaSMachineCredentialProvider._refresh_credential]
    gives a token whose lifetime is not negative, whose expiry is a
    timestamp of the years 1 to 9999, and whose prefetch time is not before
    the year 1: the value is the token response itself, both times are
    set, the stale time is the expiry minus a fifth of the lifetime and the
    prefetch time the expiry minus a third of it (floor division, whole
    seconds); the prefetch time is not after the stale time and the stale
    time is not after the expiry.  For an expiry outside the years 1 to
    9999 (a timestamp in milliseconds, say) [_refresh_credential] raises
    what [fromtimestamp] raises, a [ValueError] as long as the C library
    can convert the timestamp.  A failure of the token request is passed
    on unchanged. *)
Theorem machine_credential_timing
    (token : IDaaSMachineCredentialProvider.IDaaSTokenResponse) :
  (0 <= IDaaSMachineCredentialProvider.expires_in token ->
   IDaaSMachineCredentialProvider.timestamp_min
   <= IDaaSMachineCredentialProvider.expires_at token
      - IDaaSMachineCredentialProvider.expires_in token / 3 ->
   IDaaSMachineCredentialProvider.expires_at token
   <= IDaaSMachineCredentialProvider.timestamp_max ->
   exists expiry stale prefetch,
     IDaaSMachineCredentialProvider.fromtimestamp
       (IDaaSMachineCredentialProvider.expires_at token) = Return expiry
     /\ IDaaSMachineCredentialProvider._refresh_credential (Return token)
        = Return (mkRefreshResult token (Some stale) (Some prefetch))
     /\ stale = seconds (IDaaSMachineCredentialProvider.expires_at token
                         - IDaaSMachineCredentialProvider.expires_in token / 5)
     /\ prefetch
        = seconds (IDaaSMachineCredentialProvider.expires_at token
                   - IDaaSMachineCredentialProvider.expires_in token / 3)
     /\ datetime_min <= prefetch
     /\ prefetch <= stale
     /\ stale <= expiry
     /\ expiry <= datetime_max)
  /\
  (IDaaSMachineCredentialProvider.expires_at token
   < IDaaSMachineCredentialProvider.timestamp_min
   \/ IDaaSMachineCredentialProvider.timestamp_max
      < IDaaSMachineCredentialProvider.expires_at token ->
   exists e,
     IDaaSMachineCredentialProvider._refresh_credential (Return token)
     = Raise e
     /\ (IDaaSMachineCredentialProvider.gmtime_min
         <= IDaaSMachineCredentialProvider.expires_at token
         <= IDaaSMachineCredentialProvider.gmtime_max -> e = ValueError))
  /\
  (forall e, IDaaSMachineCredentialProvider._refresh_credential (Raise e)
             = Raise e).
Proof.
  split; [|split].
  - intros Hlife Hmin Hmax.
    assert (H5 : 0 <= IDaaSMachineCredentialProvider.expires_in token / 5)
      by (apply Z.div_pos; lia).
    assert (H35 : IDaaSMachineCredentialProvider.expires_in token / 5
                  <= IDaaSMachineCredentialProvider.expires_in token / 3)
      by (apply Z.div_le_compat_l; lia).
    eexists. eexists. eexists.
    split.
    { apply fromtimestamp_in_range. split; [lia | exact Hmax]. }
    split; [exact (refresh_credential_in_range token Hlife Hmin Hmax)|].
    split; [reflexivity|]. split; [reflexivity|].
    unfold IDaaSMachineCredentialProvider.timestamp_min,
      IDaaSMachineCredentialProvider.timestamp_max in *.
    unfold seconds, microseconds_per_second, datetime_min, datetime_max.
    repeat split; lia.
  - apply refresh_credential_out_of_range.
  - intros e. reflexivity.
Qed.

Lemma machine_credential_timing_witness :
  (exists stale prefetch,
     IDaaSMachineCredentialProvider._refresh_credential
       (Return (IDaaSMachineCredentialProvider.mkToken "t" 3600 1700000000))
     = Return (mkRefreshResult
                 (IDaaSMachineCredentialProvider.mkToken "t" 3600 1700000000)
                 (Some stale) (Some prefetch))
     /\ prefetch <= stale)
  /\
  IDaaSMachineCredentialProvider._refresh_credential
    (Return (IDaaSMachineCredentialProvider.mkToken "t" 3600 1700000000000))
  = Raise ValueError.
Proof.
  split.
  - destruct (proj1 (machine_credential_timing
                       (IDaaSMachineCredentialProvider.mkToken "t" 3600
                          1700000000)))
      as [expiry [stale [prefetch [_ [Heq [_ [_ [_ [Hle _]]]]]]]]];
      [discriminate | discriminate | discriminate |].
    exists stale, prefetch. split; [exact Heq | exact Hle].
  - destruct (proj1 (proj2 (machine_credential_timing
                              (IDaaSMachineCredentialProvider.mkToken "t" 3600
                                 1700000000000))))
      as [e [Heq He]]; [right; reflexivity|].
    rewrite Heq. f_equal. apply He. split; discriminate.
Defined.

(** X12.  A machine credential in the cache, with the module's jitter
    values (start and range of five minutes each) and [random.random()] in
    [[0, 1)].  The stale time that [_handle_fetched_success] stores for the
    result of [_refresh_credential] is the expiry minus a fifth of the
    lifetime plus five to ten minutes.  For a lifetime of at least 3000
    seconds the snapshot is installed and its stale time is not after the
    expiry of the token.  For a lifetime under 1500 seconds, and an expiry
    at least ten minutes before the end of the year 9999 (so that the
    jitter cannot overflow), the snapshot is installed with a stale time
    after the expiry, so the cache goes on serving such a token as fresh
    after it has expired. *)
Theorem machine_credential_stale_time_against_expiry
    (random : nat -> Q) (now : nat -> datetime)
    (fs : nat -> M IDaaSMachineCredentialProvider.IDaaSTokenResponse unit)
    (w : World IDaaSMachineCredentialProvider.IDaaSTokenResponse)
    (token : IDaaSMachineCredentialProvider.IDaaSTokenResponse)
    (r : RefreshResult IDaaSMachineCredentialProvider.IDaaSTokenResponse) :
  (forall n, (0 <= random n)%Q /\ (random n < 1)%Q) ->
  0 <= IDaaSMachineCredentialProvider.expires_in token ->
  IDaaSMachineCredentialProvider._refresh_credential (Return token)
  = Return r ->
  let o := _handle_fetched_success (default_globals random now fs) r w in
  let expiry := seconds (IDaaSMachineCredentialProvider.expires_at token) in
  IDaaSMachineCredentialProvider.fromtimestamp
    (IDaaSMachineCredentialProvider.expires_at token) = Return expiry
  /\ (3000 <= IDaaSMachineCredentialProvider.expires_in token ->
      exists stale prefetch,
        res o = Return tt
        /\ _cached_value (st o)
           = Some (mkRefreshResult token (Some stale) (Some prefetch))
        /\ stale <= expiry)
  /\ (IDaaSMachineCredentialProvider.expires_in token < 1500 ->
      IDaaSMachineCredentialProvider.expires_at token + 600
      <= IDaaSMachineCredentialProvider.timestamp_max ->
      exists stale prefetch,
        res o = Return tt
        /\ _cached_value (st o)
           = Some (mkRefreshResult token (Some stale) (Some prefetch))
        /\ expiry < stale).
Proof.
  intros Hrand Hlife Hr. cbn zeta.
  set (g := default_globals random now fs).
  assert (Hunit : random_in_unit_interval g) by exact Hrand.
  destruct (refresh_credential_returns token r Hr)
    as [Hat [-> [Hstale Hprefetch]]].
  split; [apply fromtimestamp_in_range; exact Hat|].
  assert (H5 : 0 <= IDaaSMachineCredentialProvider.expires_in token / 5)
    by (apply Z.div_pos; lia).
  assert (H3 : 0 <= IDaaSMachineCredentialProvider.expires_in token / 3)
    by (apply Z.div_pos; lia).
  assert (Hinstalled :
    jitter_fits g (Some (seconds (IDaaSMachineCredentialProvider.expires_at
                                    token)
                         - seconds (IDaaSMachineCredentialProvider.expires_in
                                      token / 5))) ->
    jitter_fits g (Some (seconds (IDaaSMachineCredentialProvider.expires_at
                                    token)
                         - seconds (IDaaSMachineCredentialProvider.expires_in
                                      token / 3))) ->
    exists stale prefetch,
      res (_handle_fetched_success g
             (mkRefreshResult token
                (Some (seconds (IDaaSMachineCredentialProvider.expires_at
                                  token)
                       - seconds (IDaaSMachineCredentialProvider.expires_in
                                    token / 5)))
                (Some (seconds (IDaaSMachineCredentialProvider.expires_at
                                  token)
                       - seconds (IDaaSMachineCredentialProvider.expires_in
                                    token / 3)))) w) = Return tt
      /\ _cached_value
           (st (_handle_fetched_success g
                  (mkRefreshResult token
                     (Some (seconds (IDaaSMachineCredentialProvider.expires_at
                                       token)
                            - seconds
                                (IDaaSMachineCredentialProvider.expires_in
                                   token / 5)))
                     (Some (seconds (IDaaSMachineCredentialProvider.expires_at
                                       token)
                            - seconds
                                (IDaaSMachineCredentialProvider.expires_in
                                   token / 3)))) w))
         = Some (mkRefreshResult token (Some stale) (Some prefetch))
      /\ seconds (IDaaSMachineCredentialProvider.expires_at token)
         - seconds (IDaaSMachineCredentialProvider.expires_in token / 5)
         + minutes 5 <= stale
         <= seconds (IDaaSMachineCredentialProvider.expires_at token)
            - seconds (IDaaSMachineCredentialProvider.expires_in token / 5)
            + minutes 5 + minutes 5).
  { intros Hfs Hfp.
    match goal with |- context [_handle_fetched_success g ?rv w] =>
      destruct (handle_fetched_success_cases g w rv)
        as [w' [_ [_ [_ [[s [p [E [Hcv [_ [_ Hj]]]]]] | [_ [_ [_ Hno]]]]]]]]
    end.
    - rewrite E. cbn [res st]. destruct (Hj Hunit) as [Hs Hp].
      cbn [stale_time prefetch_time value] in Hs, Hp, Hcv.
      destruct s as [s|]; [|contradiction].
      destruct p as [p|]; [|contradiction].
      exists s, p. split; [reflexivity|]. split; [exact Hcv|].
      unfold jittered_optional, jittered in Hs.
      change (JITTER_RANGE g <=? 0) with false in Hs. cbv iota in Hs.
      exact Hs.
    - exfalso. apply Hno. auto. }
  split.
  - intros Hlong.
    assert (600 <= IDaaSMachineCredentialProvider.expires_in token / 5)
      by (apply Z.div_le_lower_bound; lia).
    assert (600 <= IDaaSMachineCredentialProvider.expires_in token / 3)
      by (apply Z.div_le_lower_bound; lia).
    destruct Hinstalled as [stale [prefetch [Hres [Hcv Hb]]]].
    + intros _. cbn [JITTER_START JITTER_RANGE g default_globals].
      unfold IDaaSMachineCredentialProvider.timestamp_max,
        minutes, seconds, microseconds_per_second, datetime_min, datetime_max
        in *. lia.
    + intros _. cbn [JITTER_START JITTER_RANGE g default_globals].
      unfold IDaaSMachineCredentialProvider.timestamp_max,
        minutes, seconds, microseconds_per_second, datetime_min, datetime_max
        in *. lia.
    + exists stale, prefetch. split; [exact Hres|]. split; [exact Hcv|].
      unfold minutes, seconds, microseconds_per_second in *. lia.
  - intros Hshort Hroom.
    assert (IDaaSMachineCredentialProvider.expires_in token / 5 < 300)
      by (apply Z.div_lt_upper_bound; lia).
    destruct Hinstalled as [stale [prefetch [Hres [Hcv Hb]]]].
    + intros _. cbn [JITTER_START JITTER_RANGE g default_globals].
      unfold IDaaSMachineCredentialProvider.timestamp_max,
        minutes, seconds, microseconds_per_second, datetime_min, datetime_max
        in *. lia.
    + intros _. cbn [JITTER_START JITTER_RANGE g default_globals].
      unfold IDaaSMachineCredentialProvider.timestamp_max,
        minutes, seconds, microseconds_per_second, datetime_min, datetime_max
        in *. lia.
    + exists stale, prefetch. split; [exact Hres|]. split; [exact Hcv|].
      unfold minutes, seconds, microseconds_per_second in *. lia.
Qed.

Lemma machine_credential_stale_time_against_expiry_witness :
  exists stale prefetch,
    _cached_value
      (st (_handle_fetched_success
             (default_globals (fun _ => 1 # 2) (fun _ => 0)
                (fun _ => ret tt))
             (mkRefreshResult
                (IDaaSMachineCredentialProvider.mkToken "t" 600 10000)
                (Some (seconds 10000 - seconds 120))
                (Some (seconds 10000 - seconds 200)))
             (mkWorld None false false false 100%nat [] false
                0%nat 0%nat 0%nat)))
    = Some (mkRefreshResult
              (IDaaSMachineCredentialProvider.mkToken "t" 600 10000)
              (Some stale) (Some prefetch))
    /\ seconds 10000 < stale.
Proof.
  destruct (machine_credential_stale_time_against_expiry
              (fun _ => 1 # 2) (fun _ => 0) (fun _ => ret tt)
              (mkWorld None false false false 100%nat [] false
                 0%nat 0%nat 0%nat)
              (IDaaSMachineCredentialProvider.mkToken "t" 600 10000)
              (mkRefreshResult
                 (IDaaSMachineCredentialProvider.mkToken "t" 600 10000)
                 (Some (seconds 10000 - seconds 120))
                 (Some (seconds 10000 - seconds 200))))
    as [_ [_ Hshort]].
  - intros n. split; [discriminate | reflexivity].
  - discriminate.
  - reflexivity.
  - destruct Hshort as [stale [prefetch [_ [Hcv Hlate]]]];
      [reflexivity | discriminate |].
    exists stale, prefetch. split; [exact Hcv | exact Hlate].
Defined.
